(** * Sentiment-Analysis-LSTMs: the text preparation pipeline

    A shallow embedding of [data_preparation.py]: [cleanup_text],
    [create_vocab], [process_reviews] and the corpus assembly of
    [process_data], together with the parts of Python ([str.lower],
    [str.join], slicing, list repetition, [re.sub], [collections.Counter])
    and of torchtext ([vocab], [Vocab]) that these functions call. *)

From Stdlib Require Import String Ascii List NArith ZArith Lia Bool.
Import ListNotations.

(** ** Python values *)

Module Py.

(** A Python [str] is a sequence of Unicode code points. *)
Definition char := N.
Definition str := list char.

(** A literal of the source, read as a Python [str]. *)
Definition lit (s : string) : str := map N_of_ascii (list_ascii_of_string s).

Fixpoint str_eqb (a b : str) : bool :=
  match a, b with
  | [], [] => true
  | x :: a', y :: b' => N.eqb x y && str_eqb a' b'
  | _, _ => false
  end.

(** [len(l)] *)
Definition len {A} (l : list A) : Z := Z.of_nat (length l).

(** [l * n] on a list: a non-positive count gives the empty list. *)
Definition list_mul {A} (l : list A) (n : Z) : list A :=
  concat (repeat l (Z.to_nat n)).

(** [l[:stop]]: a negative stop counts from the end, and every bound is
    clipped to the list. *)
Definition slice_to {A} (l : list A) (stop : Z) : list A :=
  if (stop <? 0)%Z then firstn (Z.to_nat (len l + stop)) l
  else firstn (Z.to_nat stop) l.

(** [sep.join(parts)] *)
Fixpoint join (sep : str) (parts : list str) : str :=
  match parts with
  | [] => []
  | [p] => p
  | p :: rest => p ++ sep ++ join sep rest
  end.

(** [text.split()]: the words between runs of white space, the characters
    [str.isspace] accepts.  [word] holds the word being read. *)
Definition is_space (c : char) : bool :=
  N.eqb c 32 || ((9 <=? c)%N && (c <=? 13)%N) || ((28 <=? c)%N && (c <=? 31)%N)
  || N.eqb c 133 || N.eqb c 160 || N.eqb c 5760
  || ((8192 <=? c)%N && (c <=? 8202)%N)
  || N.eqb c 8232 || N.eqb c 8233 || N.eqb c 8239 || N.eqb c 8287
  || N.eqb c 12288.

Fixpoint split_from (word text : str) : list str :=
  match text with
  | [] => match word with [] => [] | _ => [word] end
  | c :: rest =>
      if is_space c then
        match word with
        | [] => split_from [] rest
        | _ => word :: split_from [] rest
        end
      else split_from (word ++ [c]) rest
  end.

Definition split (text : str) : list str := split_from [] text.

(** *** [str.lower]

    On the ASCII range the lower-casing is the one of C: [A-Z] move to
    [a-z] and nothing else changes.  Above it Python applies the Unicode
    mapping, which can produce several code points for one and looks at
    the neighbours of a capital sigma; it is taken as a parameter
    [unicode_lower before c after], [before] being the code points that
    precede [c], nearest first. *)
Definition ascii_lower (c : char) : char :=
  if (65 <=? c)%N && (c <=? 90)%N then (c + 32)%N else c.

Fixpoint lower_from (unicode_lower : str -> char -> str -> str)
    (before text : str) : str :=
  match text with
  | [] => []
  | c :: after =>
      (if (c <? 128)%N then [ascii_lower c] else unicode_lower before c after)
        ++ lower_from unicode_lower (c :: before) after
  end.

Definition lower (unicode_lower : str -> char -> str -> str) (text : str) : str :=
  lower_from unicode_lower [] text.

End Py.

(** ** [re.sub] for the patterns of the source

    Both patterns of [cleanup_text] are a greedy repetition of one
    character class: [[^a-z.?!:)( \n]+] and [\.{2,}].  [sub_run cls m repl]
    is [re.sub] for the pattern "[m] or more characters of [cls]"
    ([1 <= m]): the text is scanned from the left, every maximal run of
    [cls] characters of length at least [m] is replaced by [repl], and a
    shorter run is copied.  [run] holds the run being read. *)

Module Re.
Import Py.

Definition flush (m : nat) (repl run : str) : str :=
  if (m <=? length run)%nat then repl else run.

Fixpoint sub_from (cls : char -> bool) (m : nat) (repl run text : str) : str :=
  match text with
  | [] => flush m repl run
  | c :: rest =>
      if cls c then sub_from cls m repl (run ++ [c]) rest
      else flush m repl run ++ c :: sub_from cls m repl [] rest
  end.

Definition sub_run (cls : char -> bool) (m : nat) (repl text : str) : str :=
  sub_from cls m repl [] text.

End Re.

(** ** [cleanup_text] *)

Module Chars.
Definition newline : Py.char := 10%N.
Definition space : Py.char := 32%N.
Definition bang : Py.char := 33%N.
Definition lparen : Py.char := 40%N.
Definition rparen : Py.char := 41%N.
Definition dot : Py.char := 46%N.
Definition colon : Py.char := 58%N.
Definition question : Py.char := 63%N.
End Chars.

(** The class [[a-z.?!:)( \n]] whose complement the first substitution
    deletes. *)
Definition kept_class (c : Py.char) : bool :=
  ((97 <=? c)%N && (c <=? 122)%N)
  || N.eqb c Chars.dot || N.eqb c Chars.question || N.eqb c Chars.bang
  || N.eqb c Chars.colon || N.eqb c Chars.rparen || N.eqb c Chars.lparen
  || N.eqb c Chars.space || N.eqb c Chars.newline.

Definition removed_class (c : Py.char) : bool := negb (kept_class c).

(** The class [\.] *)
Definition dot_class (c : Py.char) : bool := N.eqb c Chars.dot.

Definition cleanup_text (unicode_lower : Py.str -> Py.char -> Py.str -> Py.str)
    (text : Py.str) : Py.str :=
  let text := Py.lower unicode_lower text in
  let text := Re.sub_run removed_class 1 [] text in
  let text := Re.sub_run dot_class 2 [Chars.dot] text in
  let text := Re.sub_run dot_class 2 [Chars.bang] text in
  let text := Re.sub_run dot_class 2 [Chars.question] text in
  let text := Re.sub_run dot_class 2 [Chars.rparen] text in
  let text := Re.sub_run dot_class 2 [Chars.lparen] text in
  let text := Re.sub_run dot_class 2 [Chars.colon] text in
  text.

(** The shorter normalizer the later passes reduce to: lower-case, keep
    the characters of the class, and write one [.] for every run of two or
    more. *)
Fixpoint collapse_dots (text : Py.str) : Py.str :=
  match text with
  | [] => []
  | c :: rest =>
      if dot_class c then
        match rest with
        | d :: _ => if dot_class d then collapse_dots rest else c :: collapse_dots rest
        | [] => [c]
        end
      else c :: collapse_dots rest
  end.

Definition cleanup_text_simple
    (unicode_lower : Py.str -> Py.char -> Py.str -> Py.str) (text : Py.str) : Py.str :=
  collapse_dots (filter kept_class (Py.lower unicode_lower text)).

(** A Unicode mapping to run examples with: every code point above ASCII
    is left as it is. *)
Definition no_unicode_lower (before : Py.str) (c : Py.char) (after : Py.str) : Py.str := [c].

(** The alphabet of a normalized text: [a] to [z], the space, the newline
    and the six punctuation marks. *)
Definition alphabet : Py.str :=
  Py.lit "abcdefghijklmnopqrstuvwxyz"
    ++ [Chars.space; Chars.newline; Chars.dot; Chars.bang; Chars.lparen;
        Chars.rparen; Chars.colon; Chars.question].

(** [has_double c text]: some two neighbours in [text] are both [c]. *)
Fixpoint has_double (c : Py.char) (text : Py.str) : bool :=
  match text with
  | [] => false
  | a :: rest =>
      match rest with
      | b :: _ => (N.eqb a c && N.eqb b c) || has_double c rest
      | [] => false
      end
  end.

(** ** [collections.Counter]

    A [Counter] is a dict, and a dict keeps its keys in the order of their
    first insertion: an association list with one entry per key. *)

Module Collections.
Import Py.

Definition dict := list (str * Z).

(** [d[key] += 1], a missing key counting as 0 and going to the end. *)
Fixpoint incr (key : str) (d : dict) : dict :=
  match d with
  | [] => [(key, 1%Z)]
  | (k, n) :: rest =>
      if str_eqb k key then (k, (n + 1)%Z) :: rest else (k, n) :: incr key rest
  end.

Definition Counter (items : list str) : dict :=
  fold_left (fun d key => incr key d) items [].

(** [d[key]] on a [Counter]: a missing key counts 0. *)
Fixpoint get (key : str) (d : dict) : Z :=
  match d with
  | [] => 0%Z
  | (k, n) :: rest => if str_eqb k key then n else get key rest
  end.

(** [d.keys()] *)
Definition keys (d : dict) : list str := map fst d.

(** [d.pop(key, None)], for the dict that is left. *)
Fixpoint pop (key : str) (d : dict) : dict :=
  match d with
  | [] => []
  | (k, n) :: rest => if str_eqb k key then rest else (k, n) :: pop key rest
  end.

End Collections.

(** ** torchtext's [Vocab] and the factory [vocab]

    A [Vocab] holds its tokens in id order and an optional default index.
    [None] as a result stands for the error the library raises. *)

Module Torchtext.
Import Py Collections.

Record Vocab := mkVocab { itos : list str; default_index : option Z }.

Definition member (token : str) (tokens : list str) : bool :=
  existsb (str_eqb token) tokens.

(** The tokens reach the constructor as UTF-8 strings: a token that holds
    a surrogate code point (U+D800 to U+DFFF) cannot be encoded, and the
    call raises a [TypeError]. *)
Definition surrogate (c : char) : bool := (55296 <=? c)%N && (c <=? 57343)%N.

Definition encodable (token : str) : bool :=
  forallb (fun c => negb (surrogate c)) token.

(** The constructor adds the tokens one by one and refuses a token it has
    already added. *)
Fixpoint add_tokens (added tokens : list str) : option (list str) :=
  match tokens with
  | [] => Some added
  | token :: rest =>
      if member token added then None else add_tokens (added ++ [token]) rest
  end.

Definition new_Vocab (tokens : list str) (default : option Z) : option Vocab :=
  if forallb encodable tokens then
    match add_tokens [] tokens with
    | Some added => Some (mkVocab added default)
    | None => None
    end
  else None.

(** [vocab(ordered_dict, min_freq, specials)] with [special_first] left at
    its default [True]. *)
Definition vocab (ordered_dict : dict) (min_freq : Z) (specials : list str)
    : option Vocab :=
  let ordered_dict := fold_left (fun d token => pop token d) specials ordered_dict in
  let tokens :=
    map fst (filter (fun item => (min_freq <=? snd item)%Z) ordered_dict) in
  let tokens := specials ++ tokens in
  new_Vocab tokens None.

Definition set_default_index (v : Vocab) (index : Z) : Vocab :=
  mkVocab (itos v) (Some index).

Fixpoint index_from (i : Z) (token : str) (tokens : list str) : option Z :=
  match tokens with
  | [] => None
  | t :: rest => if str_eqb t token then Some i else index_from (i + 1)%Z token rest
  end.

(** [token in v] *)
Definition contains (v : Vocab) (token : str) : bool := member token (itos v).

(** [v[token]]: the id of the token, the default index for a token that
    has none, and an error when no default index is set. *)
Definition getitem (v : Vocab) (token : str) : option Z :=
  match index_from 0%Z token (itos v) with
  | Some i => Some i
  | None => default_index v
  end.

(** [v(tokens)] *)
Fixpoint forward (v : Vocab) (tokens : list str) : option (list Z) :=
  match tokens with
  | [] => Some []
  | token :: rest =>
      match getitem v token with
      | None => None
      | Some i =>
          match forward v rest with
          | None => None
          | Some ids => Some (i :: ids)
          end
      end
  end.

End Torchtext.

(** ** [create_vocab], [process_reviews] and the corpus of [process_data] *)

Import Py.

Definition create_vocab (text : str) (tokenizer : str -> list str)
    (lemmatize : str -> str) (unk_token pad_token : str) : option Torchtext.Vocab :=
  let tokenized_text := tokenizer text in
  let lemmatized_text := map lemmatize tokenized_text in
  let token_freqs := Collections.Counter lemmatized_text in
  match Torchtext.vocab token_freqs 10 [pad_token; unk_token] with
  | None => None
  | Some vocabulary => Some (Torchtext.set_default_index vocabulary 1)
  end.

Definition process_reviews (unicode_lower : str -> char -> str -> str)
    (review : str) (tokenizer : str -> list str) (lemmatize : str -> str)
    (vocabulary : Torchtext.Vocab) (max_len : Z) : option (list Z) :=
  let review_cleaned := cleanup_text unicode_lower review in
  let review_tokenized := tokenizer review_cleaned in
  let lemmatized_text := map lemmatize review_tokenized in
  match Torchtext.forward vocabulary lemmatized_text with
  | None => None
  | Some review_processed =>
      if (len review_processed <? max_len)%Z then
        Some (review_processed
                ++ list_mul [0%Z] (max_len - len review_processed))
      else if (len review_processed >? max_len)%Z then
        Some (slice_to review_processed max_len)
      else Some review_processed
  end.

(** The part of [process_data] that builds the corpus and the vocabulary
    out of the review columns of the training and validation splits. *)
Definition process_data_corpus (training_review validation_review : list str) : str :=
  let corpus_data := training_review ++ validation_review in
  let corpus := join [Chars.newline] training_review in
  corpus.

Definition process_data_vocabulary (unicode_lower : str -> char -> str -> str)
    (word_tokenize : str -> list str) (lemmatize : str -> str)
    (training_review validation_review : list str) : option Torchtext.Vocab :=
  let corpus := process_data_corpus training_review validation_review in
  let corpus_cleaned := cleanup_text unicode_lower corpus in
  create_vocab corpus_cleaned word_tokenize lemmatize (lit "<unk>") (lit "<pad>").

(** The tokens [vocab] admits behind two specials [pad_token] and
    [unk_token]: the keys left after the two [pop]s whose count reaches
    [min_freq], in the order of the dict. *)
Definition admitted (d : Collections.dict) (min_freq : Z) (pad_token unk_token : str)
    : list str :=
  map fst (filter (fun item => (min_freq <=? snd item)%Z)
             (Collections.pop unk_token (Collections.pop pad_token d))).

(** How often a lemma occurs in a lemmatized text. *)
Definition frequency (lemma : str) (lemmatized_text : list str) : Z :=
  len (filter (str_eqb lemma) lemmatized_text).

Definition id_lemmatize (word : str) : str := word.

(** ** [rating_to_sentiment] *)

Definition rating_to_sentiment (rating : Z) : Z :=
  if existsb (Z.eqb rating) [1; 2; 3]%Z then 0%Z else 1%Z.

(** ** The table steps of [process_data]

    The three columns read from the file, a missing cell being [None];
    the rows after [dropna], with the names the source gives the columns;
    and the rows after the rating has become a sentiment. *)

Module Frame.

Record raw_row := mk_raw
  { review_text : option str; rating_cell : option Z; class_name : option str }.

Record rated_row := mk_rated
  { rated_review : str; rating : Z; rated_category : str }.

Record row := mk_row
  { review : str; sentiment : Z; product_category : str }.

(** [dropna]: a row with a missing cell goes. *)
Definition dropna (data : list raw_row) : list rated_row :=
  flat_map
    (fun r =>
       match review_text r, rating_cell r, class_name r with
       | Some text, Some stars, Some category => [mk_rated text stars category]
       | _, _, _ => []
       end)
    data.

(** The length of the group of [category] under
    [groupby("product_category")]. *)
Definition group_len (category : str) (data : list rated_row) : Z :=
  len (filter (fun r => str_eqb (rated_category r) category) data).

(** [groupby("product_category").filter(lambda review: len(review) > 10)]:
    the rows of the groups that pass, in the order of the table. *)
Definition filter_categories (data : list rated_row) : list rated_row :=
  filter (fun r => (group_len (rated_category r) data >? 10)%Z) data.

(** The new column [sentiment] and the drop of [rating]. *)
Definition to_sentiment (data : list rated_row) : list row :=
  map (fun r => mk_row (rated_review r) (rating_to_sentiment (rating r))
                  (rated_category r))
    data.

End Frame.

Definition process_data_transformed (data : list Frame.raw_row) : list Frame.row :=
  let data_transformed := Frame.dropna data in
  let data_transformed := Frame.filter_categories data_transformed in
  Frame.to_sentiment data_transformed.

(** The balancing step.  [groupby(["sentiment"])] has a group for each
    sentiment that occurs, in the order 0, 1 ([rating_to_sentiment] gives
    no other); every group is replaced by [x.sample(n)], [n] being the
    least group size.  The draw of pandas is random: [sample] stands for
    it. *)
Definition sentiment_group (s : Z) (data : list Frame.row) : list Frame.row :=
  filter (fun r => Z.eqb (Frame.sentiment r) s) data.

Definition min_group_size (data : list Frame.row) : nat :=
  match sentiment_group 0 data, sentiment_group 1 data with
  | [], g1 => length g1
  | g0, [] => length g0
  | g0, g1 => Nat.min (length g0) (length g1)
  end.

Definition process_data_balanced (sample : list Frame.row -> nat -> list Frame.row)
    (data : list Frame.raw_row) : list Frame.row :=
  let data_transformed := process_data_transformed data in
  let draw group :=
    match group with
    | [] => []
    | _ => sample group (min_group_size data_transformed)
    end in
  draw (sentiment_group 0 data_transformed) ++ draw (sentiment_group 1 data_transformed).

(** ** Tensors, [convert_to_tensor] and [dataset]

    A tensor built from Python integers holds 64-bit integers; a tensor
    built from no number at all is a float32 tensor, and [torch.cat]
    converts an integer tensor it joins to a float32 one.  The float32
    nearest to an integer is an integer again: [float32] stands for this
    rounding, and the entries of every tensor are kept as integers.  A
    two-dimensional tensor is the list of its rows.  [None] stands for
    the error torch raises. *)

Module Torch.

Inductive dtype := Int64 | Float32.

Record tensor2d := mk_tensor { dtype_of : dtype; rows : list (list Z) }.

Definition in_int64 (z : Z) : bool :=
  (- 2 ^ 63 <=? z)%Z && (z <? 2 ^ 63)%Z.

(** [torch.tensor(values)] for a list of integers. *)
Definition tensor1 (values : list Z) : option (dtype * list Z) :=
  if forallb in_int64 values
  then Some (match values with [] => Float32 | _ => Int64 end, values)
  else None.

(** [torch.tensor(values)] for a list of lists of integers: the lists
    must have one length.  (For the empty list the tensor has one
    dimension, of size 0: no row.) *)
Definition tensor2 (values : list (list Z)) : option tensor2d :=
  match values with
  | [] => Some (mk_tensor Float32 [])
  | first :: _ =>
      if forallb (fun r => Nat.eqb (length r) (length first)) values
         && forallb (forallb in_int64) values
      then Some (mk_tensor (match first with [] => Float32 | _ => Int64 end) values)
      else None
  end.

(** [t.unsqueeze(1)] *)
Definition unsqueeze1 (t : dtype * list Z) : tensor2d :=
  mk_tensor (fst t) (map (fun x => [x]) (snd t)).

Definition promote (a b : dtype) : dtype :=
  match a, b with
  | Int64, Int64 => Int64
  | _, _ => Float32
  end.

Definition cast (float32 : Z -> Z) (from to : dtype) (row : list Z) : list Z :=
  match from, to with
  | Int64, Float32 => map float32 row
  | _, _ => row
  end.

(** [torch.cat((a, b), dim=1)]: the rows of [a] and [b] side by side, in
    the promoted type; the two must have as many rows. *)
Definition cat1 (float32 : Z -> Z) (a b : tensor2d) : option tensor2d :=
  if Nat.eqb (length (rows a)) (length (rows b))
  then
    let dt := promote (dtype_of a) (dtype_of b) in
    Some (mk_tensor dt
            (map (fun r => cast float32 (dtype_of a) dt (fst r)
                           ++ cast float32 (dtype_of b) dt (snd r))
               (combine (rows a) (rows b))))
  else None.

(** [t[index]] on the first dimension, a negative index counting from the
    end. *)
Definition getitem {A} (t : list A) (index : Z) : option A :=
  let i := if (index <? 0)%Z then (index + len t)%Z else index in
  if (0 <=? i)%Z && (i <? len t)%Z then nth_error t (Z.to_nat i) else None.

End Torch.

(** The two columns [review_processed] and [sentiment] of a table, row by
    row. *)
Definition convert_to_tensor (float32 : Z -> Z) (dataframe : list (list Z * Z))
    : option Torch.tensor2d :=
  let review_processed_values := map fst dataframe in
  let sentiment_values := map snd dataframe in
  match Torch.tensor2 review_processed_values with
  | None => None
  | Some review_processed_tensor =>
      match Torch.tensor1 sentiment_values with
      | None => None
      | Some sentiment_tensor =>
          let sentiment_tensor := Torch.unsqueeze1 sentiment_tensor in
          Torch.cat1 float32 review_processed_tensor sentiment_tensor
      end
  end.

Record dataset := mk_dataset { data : Torch.tensor2d }.

Definition dataset_len (self : dataset) : Z := len (Torch.rows (data self)).

Definition dataset_getitem (self : dataset) (index : Z) : option (list Z) :=
  Torch.getitem (Torch.rows (data self)) index.

(** [column.apply(f)]: [f] on every cell, the first error ending it. *)
Fixpoint series_apply {A B} (f : A -> option B) (column : list A) : option (list B) :=
  match column with
  | [] => Some []
  | x :: rest =>
      match f x with
      | None => None
      | Some y =>
          match series_apply f rest with
          | None => None
          | Some ys => Some (y :: ys)
          end
      end
  end.

(** What [process_data] does with one split once the vocabulary is built:
    the column [review_processed], the two columns kept, the tensor and
    the [dataset]. *)
Definition process_data_dataset (unicode_lower : str -> char -> str -> str)
    (float32 : Z -> Z)
    (word_tokenize : str -> list str) (lemmatize : str -> str)
    (vocabulary : Torchtext.Vocab) (max_len : Z) (split_data : list Frame.row)
    : option dataset :=
  match series_apply
          (fun x => process_reviews unicode_lower x word_tokenize lemmatize vocabulary max_len)
          (map Frame.review split_data) with
  | None => None
  | Some review_processed =>
      let data_processed := combine review_processed (map Frame.sentiment split_data) in
      match convert_to_tensor float32 data_processed with
      | None => None
      | Some data_tensor => Some (mk_dataset data_tensor)
      end
  end.

(** The distinct items of a list in the order of their first occurrence;
    [seen] holds the items met so far. *)
Fixpoint first_seen_from (seen items : list str) : list str :=
  match items with
  | [] => []
  | x :: rest =>
      if Torchtext.member x seen then first_seen_from seen rest
      else x :: first_seen_from (seen ++ [x]) rest
  end.

Definition first_seen (items : list str) : list str := first_seen_from [] items.

(** A text of ASCII characters. *)
Definition is_ascii (text : str) : bool := forallb (fun c => (c <? 128)%N) text.

(** The length reconciliation of [process_reviews], on the ids the lookup
    returned. *)
Definition reconcile (ids : list Z) (max_len : Z) : list Z :=
  if (len ids <? max_len)%Z then ids ++ list_mul [0%Z] (max_len - len ids)
  else if (len ids >? max_len)%Z then slice_to ids max_len
  else ids.

(** The id a lookup returns when the default index is [d]. *)
Definition id_or_default (v : Torchtext.Vocab) (d : Z) (token : str) : Z :=
  match Torchtext.index_from 0%Z token (Torchtext.itos v) with
  | Some i => i
  | None => d
  end.

(** A table whose reviews hold no id at all. *)
Definition no_ids (dataframe : list (list Z * Z)) : bool :=
  forallb (fun p => match fst p with [] => true | _ => false end) dataframe.

(** The reviews of a table have one length. *)
Definition rectangular (dataframe : list (list Z * Z)) : Prop :=
  forall p q, In p dataframe -> In q dataframe -> length (fst p) = length (fst q).

(** Every id and every sentiment of a table is a 64-bit integer. *)
Definition integral (dataframe : list (list Z * Z)) : Prop :=
  Forall (fun p => forallb Torch.in_int64 (fst p) = true
                   /\ Torch.in_int64 (snd p) = true) dataframe.

(** * Properties *)

(** ** Running the definitions *)

Example cleanup_text_ex1 :
  cleanup_text no_unicode_lower (Py.lit "Great dress!!! Loved it.... 5/5")
  = Py.lit "great dress!!! loved it. ".
Proof. vm_compute. reflexivity. Qed.

(** Code points above ASCII and digits are deleted, runs of dots collapse. *)
Example cleanup_text_ex2 :
  cleanup_text no_unicode_lower (lit "Caf" ++ [233%N] ++ lit " No.1 ... (OK?)")
  = lit "caf no. . (ok?)".
Proof. vm_compute. reflexivity. Qed.

Example create_vocab_ex1 :
  option_map Torchtext.itos
    (create_vocab (lit "great dress great fit") split id_lemmatize (lit "<unk>") (lit "<pad>"))
  = Some [lit "<pad>"; lit "<unk>"].
Proof. vm_compute. reflexivity. Qed.

(** The same symbol for pad and unk is a repeated token. *)
Example create_vocab_ex2 :
  create_vocab (lit "great dress great fit") split id_lemmatize (lit "<pad>") (lit "<pad>")
  = None.
Proof. vm_compute. reflexivity. Qed.

(** A reserved symbol that occurs in the corpus keeps its reserved id. *)
Example create_vocab_ex3 :
  option_map Torchtext.itos
    (create_vocab (lit "pad the pad") split id_lemmatize (lit "unk") (lit "pad"))
  = Some [lit "pad"; lit "unk"].
Proof. vm_compute. reflexivity. Qed.

Example vocab_ex1 :
  option_map Torchtext.itos
    (Torchtext.vocab (Collections.Counter (split (lit "great dress great fit"))) 1
       [lit "<pad>"; lit "<unk>"])
  = Some (map lit ["<pad>"; "<unk>"; "great"; "dress"; "fit"]%string).
Proof. vm_compute. reflexivity. Qed.

Example process_reviews_ex1 :
  process_reviews no_unicode_lower (lit "Great dress!!! Loved it") split id_lemmatize
    (Torchtext.mkVocab (map lit ["<pad>"; "<unk>"; "great"; "dress"; "fit"]%string) (Some 1%Z)) 6
  = Some [2; 1; 1; 1; 0; 0]%Z.
Proof. vm_compute. reflexivity. Qed.

(** A negative [max_len] makes the slice drop ids from the end. *)
Example process_reviews_ex2 :
  process_reviews no_unicode_lower (lit "Great dress!!! Loved it") split id_lemmatize
    (Torchtext.mkVocab (map lit ["<pad>"; "<unk>"; "great"; "dress"; "fit"]%string) (Some 1%Z)) (-1)
  = Some [2; 1; 1]%Z.
Proof. vm_compute. reflexivity. Qed.

(** ** The substitutions of [cleanup_text] *)

Section Substitution.
Import Py Re.

Lemma dot_class_true c : dot_class c = true <-> c = Chars.dot.
Proof. unfold dot_class. apply N.eqb_eq. Qed.

Lemma dot_class_false c : dot_class c = false <-> c <> Chars.dot.
Proof. unfold dot_class. apply N.eqb_neq. Qed.

(** A [+] pattern with an empty replacement deletes the class. *)
Lemma sub_from_plus_empty cls run text :
  sub_from cls 1 [] run text = filter (fun c => negb (cls c)) text.
Proof.
  revert run. induction text as [|c rest IH]; intros run; simpl.
  - unfold flush. destruct run; reflexivity.
  - destruct (cls c); simpl.
    + apply IH.
    + rewrite IH. unfold flush. destruct run; reflexivity.
Qed.

Lemma sub_run_removed text :
  sub_run removed_class 1 [] text = filter kept_class text.
Proof.
  unfold sub_run. rewrite sub_from_plus_empty.
  apply filter_ext. intros c. unfold removed_class. apply negb_involutive.
Qed.

Lemma collapse_dots_repeat k :
  collapse_dots (repeat Chars.dot k) = match k with O => [] | S _ => [Chars.dot] end.
Proof.
  induction k as [|k IH]; [reflexivity|].
  destruct k as [|k]; [reflexivity|].
  change (repeat Chars.dot (S (S k))) with (Chars.dot :: Chars.dot :: repeat Chars.dot k).
  change (collapse_dots (Chars.dot :: Chars.dot :: repeat Chars.dot k))
    with (collapse_dots (repeat Chars.dot (S k))).
  exact IH.
Qed.

Lemma flush_dots k :
  flush 2 [Chars.dot] (repeat Chars.dot k) = collapse_dots (repeat Chars.dot k).
Proof.
  rewrite collapse_dots_repeat. unfold flush. rewrite repeat_length.
  destruct k as [|[|k]]; reflexivity.
Qed.

Lemma collapse_dots_run k c rest :
  dot_class c = false ->
  collapse_dots (repeat Chars.dot k ++ c :: rest)
  = collapse_dots (repeat Chars.dot k) ++ c :: collapse_dots rest.
Proof.
  intros Hc. induction k as [|k IH].
  - simpl. rewrite Hc. reflexivity.
  - destruct k as [|k].
    + simpl. rewrite Hc. reflexivity.
    + change (collapse_dots (repeat Chars.dot (S (S k)) ++ c :: rest))
        with (collapse_dots (repeat Chars.dot (S k) ++ c :: rest)).
      rewrite IH. rewrite !collapse_dots_repeat. reflexivity.
Qed.

(** The first [\.{2,}] pass, started in the middle of a run of [k] dots. *)
Lemma sub_from_dots k text :
  sub_from dot_class 2 [Chars.dot] (repeat Chars.dot k) text
  = collapse_dots (repeat Chars.dot k ++ text).
Proof.
  revert k. induction text as [|c rest IH]; intros k; simpl.
  - rewrite app_nil_r. apply flush_dots.
  - destruct (dot_class c) eqn:Hc.
    + apply dot_class_true in Hc. subst c.
      assert (E : repeat Chars.dot k ++ [Chars.dot] = repeat Chars.dot (S k))
        by (simpl; rewrite repeat_cons; reflexivity).
      rewrite E, (IH (S k)), <- E, <- app_assoc. reflexivity.
    + change (sub_from dot_class 2 [Chars.dot] [] rest)
        with (sub_from dot_class 2 [Chars.dot] (repeat Chars.dot 0) rest).
      rewrite (IH 0%nat). simpl (repeat Chars.dot 0 ++ rest).
      rewrite collapse_dots_run by exact Hc.
      rewrite flush_dots. reflexivity.
Qed.

Lemma sub_run_dots text :
  sub_run dot_class 2 [Chars.dot] text = collapse_dots text.
Proof. exact (sub_from_dots 0 text). Qed.

End Substitution.

(** ** Runs of dots after the first pass *)

Section Dots.
Import Py Re.

Lemma has_double_cons c a b rest :
  has_double c (a :: b :: rest) = (N.eqb a c && N.eqb b c) || has_double c (b :: rest).
Proof. reflexivity. Qed.

Lemma has_double_grow c a rest :
  has_double c rest = true -> has_double c (a :: rest) = true.
Proof.
  destruct rest as [|b rest]; [discriminate|].
  rewrite has_double_cons. intros H. rewrite H. apply orb_true_r.
Qed.

(** [has_double] decides the presence of the two-character substring. *)
Lemma has_double_substring c text :
  has_double c text = true <-> exists l1 l2, text = l1 ++ [c; c] ++ l2.
Proof.
  split.
  - induction text as [|a rest IH]; [discriminate|].
    destruct rest as [|b rest]; [discriminate|].
    rewrite has_double_cons. intros H. apply orb_true_iff in H.
    destruct H as [H|H].
    + apply andb_true_iff in H. destruct H as [Ha Hb].
      apply N.eqb_eq in Ha, Hb. subst. exists [], rest. reflexivity.
    + destruct (IH H) as (l1 & l2 & E). exists (a :: l1), l2.
      rewrite E. reflexivity.
  - intros (l1 & l2 & E). subst text. induction l1 as [|a l1 IH]; simpl.
    + rewrite N.eqb_refl. reflexivity.
    + apply has_double_grow. exact IH.
Qed.

Lemma has_double_tail c a rest :
  has_double c (a :: rest) = false -> has_double c rest = false.
Proof.
  destruct rest as [|b rest]; [reflexivity|].
  rewrite has_double_cons. intros H. apply orb_false_iff in H. apply H.
Qed.

Lemma collapse_dots_other c rest :
  dot_class c = false -> collapse_dots (c :: rest) = c :: collapse_dots rest.
Proof. intros H. simpl. rewrite H. reflexivity. Qed.

Lemma collapse_dots_inside c d rest :
  dot_class c = true -> dot_class d = true ->
  collapse_dots (c :: d :: rest) = collapse_dots (d :: rest).
Proof.
  intros Hc Hd. change (collapse_dots (c :: d :: rest))
    with (if dot_class c then
            if dot_class d then collapse_dots (d :: rest)
            else c :: collapse_dots (d :: rest)
          else c :: collapse_dots (d :: rest)).
  rewrite Hc, Hd. reflexivity.
Qed.

Lemma collapse_dots_last c d rest :
  dot_class c = true -> dot_class d = false ->
  collapse_dots (c :: d :: rest) = c :: d :: collapse_dots rest.
Proof.
  intros Hc Hd. change (collapse_dots (c :: d :: rest))
    with (if dot_class c then
            if dot_class d then collapse_dots (d :: rest)
            else c :: collapse_dots (d :: rest)
          else c :: collapse_dots (d :: rest)).
  rewrite Hc, Hd, (collapse_dots_other d rest Hd). reflexivity.
Qed.

(** After the first pass no two dots are neighbours. *)
Lemma collapse_dots_no_double text :
  has_double Chars.dot (collapse_dots text) = false.
Proof.
  induction text as [|a rest IH]; [reflexivity|].
  destruct (dot_class a) eqn:Ha.
  - destruct rest as [|b rest]; [simpl; rewrite Ha; reflexivity|].
    destruct (dot_class b) eqn:Hb.
    + rewrite collapse_dots_inside by assumption. exact IH.
    + rewrite collapse_dots_last by assumption.
      rewrite collapse_dots_other in IH by assumption.
      rewrite has_double_cons, IH.
      apply dot_class_false in Hb. apply N.eqb_neq in Hb. rewrite Hb.
      rewrite andb_false_r. reflexivity.
  - rewrite collapse_dots_other by assumption.
    destruct (collapse_dots rest) as [|c out]; [reflexivity|].
    rewrite has_double_cons, IH. unfold dot_class in Ha. rewrite Ha. reflexivity.
Qed.

(** On a text without neighbouring dots a [\.{2,}] substitution finds no
    match, whatever it would write. *)
Lemma sub_from_no_double repl text :
  (has_double Chars.dot text = false ->
     sub_from dot_class 2 repl [] text = text)
  /\ (has_double Chars.dot (Chars.dot :: text) = false ->
     sub_from dot_class 2 repl [Chars.dot] text = Chars.dot :: text).
Proof.
  induction text as [|c rest [IH0 IH1]]; [split; reflexivity|].
  split; intros H.
  - simpl. destruct (dot_class c) eqn:Hc.
    + apply dot_class_true in Hc. subst c. simpl. apply IH1. exact H.
    + simpl. rewrite IH0; [reflexivity|]. eapply has_double_tail; exact H.
  - assert (Hc : dot_class c = false).
    { rewrite has_double_cons in H. apply orb_false_iff in H.
      destruct H as [H _]. rewrite N.eqb_refl in H. exact H. }
    simpl. rewrite Hc. rewrite IH0; [reflexivity|].
    apply has_double_tail in H. eapply has_double_tail; exact H.
Qed.

Lemma sub_run_no_double repl text :
  has_double Chars.dot text = false -> sub_run dot_class 2 repl text = text.
Proof. apply sub_from_no_double. Qed.

Lemma collapse_dots_fixed text :
  has_double Chars.dot text = false -> collapse_dots text = text.
Proof.
  intros H. rewrite <- sub_run_dots. apply sub_run_no_double. exact H.
Qed.

Lemma collapse_dots_In c text : In c (collapse_dots text) -> In c text.
Proof.
  induction text as [|a rest IH]; [intros []|]. simpl.
  destruct (dot_class a).
  - destruct rest as [|b rest]; [intros H; exact H|].
    destruct (dot_class b).
    + intros H. right. apply IH. exact H.
    + intros [H|H]; [left; exact H|right; apply IH; exact H].
  - intros [H|H]; [left; exact H|right; apply IH; exact H].
Qed.

End Dots.

(** ** The normalizer *)

Section Normalizer.
Import Py Re.

Variable unicode_lower : str -> char -> str -> str.

Lemma kept_class_cases c :
  kept_class c = true ->
  (97 <= c <= 122)%N \/ c = Chars.dot \/ c = Chars.question \/ c = Chars.bang
  \/ c = Chars.colon \/ c = Chars.rparen \/ c = Chars.lparen
  \/ c = Chars.space \/ c = Chars.newline.
Proof.
  unfold kept_class. rewrite !orb_true_iff, andb_true_iff, !N.eqb_eq, !N.leb_le.
  tauto.
Qed.

Lemma kept_class_alphabet c : kept_class c = true -> In c alphabet.
Proof.
  intros H. apply kept_class_cases in H.
  unfold Chars.dot, Chars.question, Chars.bang, Chars.colon, Chars.rparen,
    Chars.lparen, Chars.space, Chars.newline in H.
  cbv [alphabet lit list_ascii_of_string map app In N_of_ascii N_of_digits
       Chars.dot Chars.question Chars.bang Chars.colon Chars.rparen
       Chars.lparen Chars.space Chars.newline].
  unfold char in *. simpl. lia.
Qed.

Lemma kept_class_ascii c : kept_class c = true -> (c <? 128)%N = true.
Proof.
  intros H. apply kept_class_cases in H. apply N.ltb_lt.
  unfold Chars.dot, Chars.question, Chars.bang, Chars.colon, Chars.rparen,
    Chars.lparen, Chars.space, Chars.newline in H. lia.
Qed.

Lemma kept_class_lower c : kept_class c = true -> ascii_lower c = c.
Proof.
  intros H. apply kept_class_cases in H. unfold ascii_lower.
  destruct ((65 <=? c)%N && (c <=? 90)%N) eqn:E; [|reflexivity].
  apply andb_true_iff in E. destruct E as [E1 E2].
  apply N.leb_le in E1, E2.
  unfold Chars.dot, Chars.question, Chars.bang, Chars.colon, Chars.rparen,
    Chars.lparen, Chars.space, Chars.newline in H. lia.
Qed.

(** Lower-casing changes nothing in a text over the kept class. *)
Lemma lower_from_kept before text :
  Forall (fun c => kept_class c = true) text ->
  lower_from unicode_lower before text = text.
Proof.
  intros H. revert before. induction H as [|c rest Hc _ IH]; intros before.
  - reflexivity.
  - simpl. rewrite (kept_class_ascii c Hc), (kept_class_lower c Hc), IH.
    reflexivity.
Qed.

Lemma filter_kept text :
  Forall (fun c => kept_class c = true) text -> filter kept_class text = text.
Proof.
  induction 1 as [|c rest Hc _ IH]; [reflexivity|].
  simpl. rewrite Hc, IH. reflexivity.
Qed.

Lemma cleanup_text_simple_kept text :
  Forall (fun c => kept_class c = true) (cleanup_text_simple unicode_lower text).
Proof.
  apply Forall_forall. intros c H. unfold cleanup_text_simple in H.
  apply collapse_dots_In in H. apply filter_In in H. apply H.
Qed.

Lemma cleanup_text_simple_no_double text :
  has_double Chars.dot (cleanup_text_simple unicode_lower text) = false.
Proof. apply collapse_dots_no_double. Qed.

Lemma cleanup_text_is_simple text :
  cleanup_text unicode_lower text = cleanup_text_simple unicode_lower text.
Proof.
  unfold cleanup_text, cleanup_text_simple.
  rewrite sub_run_removed, sub_run_dots.
  set (t := collapse_dots (filter kept_class (lower unicode_lower text))).
  assert (H : has_double Chars.dot t = false) by apply collapse_dots_no_double.
  rewrite (sub_run_no_double [Chars.bang] t H).
  rewrite (sub_run_no_double [Chars.question] t H).
  rewrite (sub_run_no_double [Chars.rparen] t H).
  rewrite (sub_run_no_double [Chars.lparen] t H).
  apply (sub_run_no_double [Chars.colon] t H).
Qed.

End Normalizer.

(** ** Properties of [cleanup_text] *)

(** C4. Every character of [cleanup_text s] belongs to the alphabet
    a-z, space, newline, [.], [!], [(], [)], [:], [?], for every input
    string and every Unicode lower-casing. *)
Theorem cleanup_text_alphabet :
  forall (unicode_lower : Py.str -> Py.char -> Py.str -> Py.str) (s : Py.str),
    Forall (fun c => In c alphabet) (cleanup_text unicode_lower s).
Proof.
  intros ul s. rewrite cleanup_text_is_simple.
  eapply Forall_impl; [|apply cleanup_text_simple_kept].
  intros c H. apply kept_class_alphabet. exact H.
Qed.

(** C5. [cleanup_text] is idempotent: cleaning a cleaned text gives the
    cleaned text back. *)
Theorem cleanup_text_idempotent :
  forall (unicode_lower : Py.str -> Py.char -> Py.str -> Py.str) (s : Py.str),
    cleanup_text unicode_lower (cleanup_text unicode_lower s)
    = cleanup_text unicode_lower s.
Proof.
  intros ul s. rewrite !cleanup_text_is_simple.
  set (t := cleanup_text_simple ul s).
  unfold cleanup_text_simple at 1. unfold Py.lower.
  rewrite (lower_from_kept ul [] t (cleanup_text_simple_kept ul s)).
  rewrite (filter_kept t (cleanup_text_simple_kept ul s)).
  apply collapse_dots_fixed. apply cleanup_text_simple_no_double.
Qed.

(** C6. [cleanup_text s] contains no substring of two or more consecutive
    [.] characters: it is never [l1 ++ r ++ l2] for a run [r] of [2 + k]
    dots. *)
Theorem cleanup_text_no_dot_run :
  forall (unicode_lower : Py.str -> Py.char -> Py.str -> Py.str) (s l1 l2 : Py.str) (k : nat),
    cleanup_text unicode_lower s <> l1 ++ repeat Chars.dot (2 + k) ++ l2.
Proof.
  intros ul s l1 l2 k E. rewrite cleanup_text_is_simple in E.
  pose proof (cleanup_text_simple_no_double ul s) as H.
  assert (T : has_double Chars.dot (cleanup_text_simple ul s) = true).
  { apply has_double_substring. exists l1, (repeat Chars.dot k ++ l2).
    rewrite E. reflexivity. }
  rewrite H in T. discriminate.
Qed.

(** C7. The docstring of [cleanup_text] promises that repeated
    occurrences of each kept punctuation mark are removed; the code only
    collapses dots.  On "wow!! (( ok ?? ::" the text comes back unchanged,
    with its runs of [!], [(], [?] and [:]. *)
Theorem cleanup_text_keeps_other_runs :
  forall unicode_lower : Py.str -> Py.char -> Py.str -> Py.str,
    cleanup_text unicode_lower (Py.lit "wow!! (( ok ?? ::") = Py.lit "wow!! (( ok ?? ::"
    /\ has_double Chars.bang (cleanup_text unicode_lower (Py.lit "wow!! (( ok ?? ::")) = true
    /\ has_double Chars.lparen (cleanup_text unicode_lower (Py.lit "wow!! (( ok ?? ::")) = true
    /\ has_double Chars.question (cleanup_text unicode_lower (Py.lit "wow!! (( ok ?? ::")) = true
    /\ has_double Chars.colon (cleanup_text unicode_lower (Py.lit "wow!! (( ok ?? ::")) = true.
Proof. intros ul. repeat split; vm_compute; reflexivity. Qed.

(** C10. The five later [\.{2,}] substitutions of [cleanup_text] never
    match: on the text the first three steps produce, such a substitution
    is the identity whatever its replacement, and so [cleanup_text] is the
    function that lower-cases, keeps the characters of the class and
    collapses every run of dots to one dot. *)
Theorem cleanup_text_later_passes_noop :
  forall (unicode_lower : Py.str -> Py.char -> Py.str -> Py.str) (s : Py.str),
    let t := Re.sub_run dot_class 2 [Chars.dot]
               (Re.sub_run removed_class 1 [] (Py.lower unicode_lower s)) in
    (forall repl : Py.str, Re.sub_run dot_class 2 repl t = t)
    /\ cleanup_text unicode_lower s = t
    /\ cleanup_text unicode_lower s = cleanup_text_simple unicode_lower s.
Proof.
  intros ul s t.
  assert (E : t = cleanup_text_simple ul s).
  { unfold t, cleanup_text_simple. rewrite sub_run_removed, sub_run_dots. reflexivity. }
  repeat split.
  - intros repl. apply sub_run_no_double. rewrite E.
    apply cleanup_text_simple_no_double.
  - rewrite E. apply cleanup_text_is_simple.
  - apply cleanup_text_is_simple.
Qed.

(** ** Strings, frequencies and counters *)

Section Counting.
Import Py Collections.

Lemma str_eqb_eq a b : str_eqb a b = true <-> a = b.
Proof.
  revert b. induction a as [|x a IH]; intros [|y b]; simpl; split;
    try discriminate; try reflexivity.
  - intros H. apply andb_true_iff in H. destruct H as [H1 H2].
    apply N.eqb_eq in H1. apply IH in H2. subst. reflexivity.
  - intros H. injection H as -> ->. rewrite N.eqb_refl. apply IH. reflexivity.
Qed.

Lemma str_eqb_refl a : str_eqb a a = true.
Proof. apply str_eqb_eq. reflexivity. Qed.

Lemma str_eqb_neq a b : str_eqb a b = false <-> a <> b.
Proof.
  split.
  - intros H E. apply str_eqb_eq in E. rewrite E in H. discriminate.
  - intros H. destruct (str_eqb a b) eqn:E; [|reflexivity].
    apply str_eqb_eq in E. contradiction.
Qed.

Lemma str_eqb_sym a b : str_eqb a b = str_eqb b a.
Proof.
  destruct (str_eqb b a) eqn:E.
  - apply str_eqb_eq in E. subst. apply str_eqb_refl.
  - apply str_eqb_neq in E. apply str_eqb_neq. congruence.
Qed.

Lemma frequency_nil w : frequency w [] = 0%Z.
Proof. reflexivity. Qed.

Lemma frequency_cons w a l :
  frequency w (a :: l) = ((if str_eqb a w then 1 else 0) + frequency w l)%Z.
Proof.
  unfold frequency, len. simpl. rewrite (str_eqb_sym w a).
  destruct (str_eqb a w); simpl length; lia.
Qed.

Lemma frequency_nonneg w l : (0 <= frequency w l)%Z.
Proof. unfold frequency, len. lia. Qed.

Lemma frequency_pos w l : (0 < frequency w l)%Z <-> In w l.
Proof.
  induction l as [|a l IH].
  - rewrite frequency_nil. simpl. split; [lia|tauto].
  - rewrite frequency_cons. simpl. destruct (str_eqb a w) eqn:E.
    + apply str_eqb_eq in E. pose proof (frequency_nonneg w l). split; [auto|lia].
    + apply str_eqb_neq in E. rewrite <- IH. split; [intros H; right; lia|].
      intros [H|H]; [contradiction|lia].
Qed.

Lemma get_incr key d w :
  get w (incr key d) = (get w d + (if str_eqb key w then 1 else 0))%Z.
Proof.
  induction d as [|[k n] rest IH]; simpl.
  - destruct (str_eqb key w); reflexivity.
  - destruct (str_eqb k key) eqn:Ek; simpl.
    + apply str_eqb_eq in Ek. subst k. destruct (str_eqb key w); lia.
    + destruct (str_eqb k w) eqn:Ew; [|exact IH].
      apply str_eqb_eq in Ew. subst k. rewrite str_eqb_sym, Ek. lia.
Qed.

Lemma keys_incr key d w :
  In w (keys (incr key d)) <-> w = key \/ In w (keys d).
Proof.
  induction d as [|[k n] rest IH]; simpl.
  - intuition congruence.
  - destruct (str_eqb k key) eqn:Ek; simpl.
    + apply str_eqb_eq in Ek. subst k. intuition congruence.
    + unfold keys in IH. rewrite IH. tauto.
Qed.

Lemma NoDup_keys_incr key d : NoDup (keys d) -> NoDup (keys (incr key d)).
Proof.
  induction d as [|[k n] rest IH]; simpl; intros H.
  - constructor; [intros []|constructor].
  - inversion H as [|? ? Hk Hrest]; subst.
    destruct (str_eqb k key) eqn:Ek; simpl.
    + constructor; assumption.
    + constructor; [|apply IH; exact Hrest].
      intros Hin. apply (keys_incr key rest k) in Hin.
      apply str_eqb_neq in Ek. destruct Hin as [Hin|Hin]; contradiction.
Qed.

Lemma In_get w n d : NoDup (keys d) -> In (w, n) d -> get w d = n.
Proof.
  induction d as [|[k m] rest IH]; simpl; intros H Hin; [contradiction|].
  inversion H as [|? ? Hk Hrest]; subst.
  destruct Hin as [Hin|Hin].
  - injection Hin as -> ->. rewrite str_eqb_refl. reflexivity.
  - destruct (str_eqb k w) eqn:E; [|apply IH; assumption].
    apply str_eqb_eq in E. subst k. exfalso. apply Hk.
    apply (in_map fst) in Hin. exact Hin.
Qed.

Lemma In_keys_get w d : In w (keys d) -> In (w, get w d) d.
Proof.
  induction d as [|[k m] rest IH]; simpl; intros Hin; [contradiction|].
  destruct (str_eqb k w) eqn:E.
  - apply str_eqb_eq in E. subst k. left. reflexivity.
  - apply str_eqb_neq in E. destruct Hin as [Hin|Hin]; [contradiction|].
    right. apply IH. exact Hin.
Qed.

(** The counter of a list holds one entry per distinct item, with the
    number of its occurrences. *)
Lemma fold_incr l d :
  NoDup (keys d) ->
  let c := fold_left (fun d key => incr key d) l d in
  NoDup (keys c)
  /\ (forall w, get w c = (get w d + frequency w l)%Z)
  /\ (forall w, In w (keys c) <-> In w (keys d) \/ In w l).
Proof.
  revert d. induction l as [|a l IH]; intros d H; simpl.
  - split; [exact H|]. split; intros w.
    + rewrite frequency_nil. lia.
    + tauto.
  - destruct (IH (incr a d) (NoDup_keys_incr a d H)) as (N & G & K).
    split; [exact N|]. split; intros w.
    + rewrite G, get_incr, frequency_cons. lia.
    + rewrite K, keys_incr. intuition.
Qed.

Lemma Counter_NoDup l : NoDup (keys (Counter l)).
Proof. apply (fold_incr l []). constructor. Qed.

Lemma Counter_get l w : get w (Counter l) = frequency w l.
Proof.
  destruct (fold_incr l [] (NoDup_nil _)) as (_ & G & _).
  unfold Counter. rewrite G. reflexivity.
Qed.

Lemma Counter_keys l w : In w (keys (Counter l)) <-> In w l.
Proof.
  destruct (fold_incr l [] (NoDup_nil _)) as (_ & _ & K).
  unfold Counter. rewrite K. simpl. tauto.
Qed.

Lemma pop_In key d item : In item (pop key d) -> In item d.
Proof.
  induction d as [|[k n] rest IH]; simpl; [tauto|].
  destruct (str_eqb k key); simpl; [tauto|].
  intros [H|H]; [left; exact H|right; apply IH; exact H].
Qed.

Lemma pop_keep key d w n : w <> key -> In (w, n) d -> In (w, n) (pop key d).
Proof.
  intros Hw. induction d as [|[k m] rest IH]; simpl; [tauto|].
  destruct (str_eqb k key) eqn:E; simpl.
  - apply str_eqb_eq in E. subst k. intros [H|H]; [|exact H].
    injection H as H _. congruence.
  - intros [H|H]; [left; exact H|right; apply IH; exact H].
Qed.

Lemma pop_NoDup key d :
  NoDup (keys d) -> NoDup (keys (pop key d)) /\ ~ In key (keys (pop key d)).
Proof.
  induction d as [|[k n] rest IH]; simpl; intros H.
  - split; [constructor|tauto].
  - inversion H as [|? ? Hk Hrest]; subst.
    destruct (str_eqb k key) eqn:E; simpl.
    + apply str_eqb_eq in E. subst k. split; assumption.
    + destruct (IH Hrest) as [N A]. apply str_eqb_neq in E. split.
      * constructor; [|exact N]. intros Hin. apply Hk.
        apply in_map_iff in Hin. destruct Hin as ([k' n'] & Ek & Hin).
        simpl in Ek. subst k'. apply pop_In in Hin.
        apply (in_map fst) in Hin. exact Hin.
      * intros [Hin|Hin]; [contradiction|]. apply A. exact Hin.
Qed.

Lemma NoDup_keys_filter (f : str * Z -> bool) d :
  NoDup (keys d) -> NoDup (keys (filter f d)).
Proof.
  induction d as [|[k n] rest IH]; simpl; intros H; [constructor|].
  inversion H as [|? ? Hk Hrest]; subst.
  destruct (f (k, n)); simpl; [|apply IH; exact Hrest].
  constructor; [|apply IH; exact Hrest].
  intros Hin. apply Hk. apply in_map_iff in Hin.
  destruct Hin as ([k' n'] & Ek & Hin). simpl in Ek. subst k'.
  apply filter_In in Hin. destruct Hin as [Hin _].
  apply (in_map fst) in Hin. exact Hin.
Qed.

End Counting.

(** ** The vocabulary *)

Section Vocabulary.
Import Py Collections Torchtext.

Lemma member_In token tokens : member token tokens = true <-> In token tokens.
Proof.
  unfold member. rewrite existsb_exists. split.
  - intros (x & Hin & E). apply str_eqb_eq in E. subst. exact Hin.
  - intros Hin. exists token. split; [exact Hin|apply str_eqb_refl].
Qed.

Lemma member_not_In token tokens : member token tokens = false <-> ~ In token tokens.
Proof.
  rewrite <- member_In. destruct (member token tokens); intuition congruence.
Qed.

(** The constructor accepts exactly the lists without a repeated token. *)
Lemma add_tokens_NoDup added tokens :
  NoDup (added ++ tokens) -> add_tokens added tokens = Some (added ++ tokens).
Proof.
  revert added. induction tokens as [|t rest IH]; intros added H; simpl.
  - rewrite app_nil_r. reflexivity.
  - assert (Ht : member t added = false).
    { apply member_not_In. intros Hin. apply NoDup_remove_2 in H.
      apply H. apply in_or_app. left. exact Hin. }
    rewrite Ht. rewrite IH; rewrite <- app_assoc; [reflexivity|exact H].
Qed.

Lemma add_tokens_Some added tokens out :
  add_tokens added tokens = Some out -> out = added ++ tokens.
Proof.
  revert added. induction tokens as [|t rest IH]; intros added; simpl.
  - intros H. injection H as <-. rewrite app_nil_r. reflexivity.
  - destruct (member t added); [discriminate|]. intros H.
    apply IH in H. rewrite <- app_assoc in H. exact H.
Qed.

Lemma add_tokens_repeated added t rest :
  In t added -> add_tokens added (t :: rest) = None.
Proof. intros H. simpl. apply member_In in H. rewrite H. reflexivity. Qed.

Lemma index_from_None i token tokens :
  ~ In token tokens -> index_from i token tokens = None.
Proof.
  revert i. induction tokens as [|t rest IH]; intros i H; simpl; [reflexivity|].
  destruct (str_eqb t token) eqn:E.
  - apply str_eqb_eq in E. subst. exfalso. apply H. left. reflexivity.
  - apply IH. intros Hin. apply H. right. exact Hin.
Qed.

Lemma forward_default v d tokens :
  default_index v = Some d ->
  exists ids, forward v tokens = Some ids /\ length ids = length tokens.
Proof.
  intros Hd. induction tokens as [|t rest (ids & E & L)]; simpl.
  - exists []. split; reflexivity.
  - assert (G : exists i, getitem v t = Some i).
    { unfold getitem. destruct (index_from 0 t (itos v)) as [i|]; eauto. }
    destruct G as (i & G). rewrite G, E. exists (i :: ids).
    split; [reflexivity|]. simpl. rewrite L. reflexivity.
Qed.

Lemma admitted_spec d min_freq pad_token unk_token w :
  NoDup (keys d) ->
  In w (admitted d min_freq pad_token unk_token)
  <-> w <> pad_token /\ w <> unk_token /\ In w (keys d) /\ (min_freq <= get w d)%Z.
Proof.
  intros H. unfold admitted. rewrite in_map_iff.
  destruct (pop_NoDup pad_token d H) as [N1 A1].
  destruct (pop_NoDup unk_token _ N1) as [N2 A2].
  split.
  - intros ([k n] & Ek & Hin). simpl in Ek. subst k.
    apply filter_In in Hin. destruct Hin as [Hin Hn]. simpl in Hn.
    apply Z.leb_le in Hn.
    assert (Hu : w <> unk_token).
    { intros ->. apply A2. apply (in_map fst) in Hin. exact Hin. }
    apply pop_In in Hin.
    assert (Hp : w <> pad_token).
    { intros ->. apply A1. apply (in_map fst) in Hin. exact Hin. }
    apply pop_In in Hin. rewrite (In_get w n d H Hin).
    repeat split; try assumption. apply (in_map fst) in Hin. exact Hin.
  - intros (Hp & Hu & Hk & Hn). exists (w, get w d). split; [reflexivity|].
    apply filter_In. split; [|simpl; apply Z.leb_le; exact Hn].
    apply pop_keep; [exact Hu|]. apply pop_keep; [exact Hp|].
    apply In_keys_get. exact Hk.
Qed.

Lemma admitted_NoDup d min_freq pad_token unk_token :
  NoDup (keys d) -> NoDup (admitted d min_freq pad_token unk_token).
Proof.
  intros H. unfold admitted. apply (NoDup_keys_filter _ _).
  apply pop_NoDup. apply pop_NoDup. exact H.
Qed.

(** [vocab] with two specials: it fails when a token cannot be encoded or
    the specials are the same string, and otherwise numbers the specials 0
    and 1 and the admitted tokens from 2. *)
Lemma vocab_two_specials d min_freq pad_token unk_token :
  NoDup (keys d) ->
  vocab d min_freq [pad_token; unk_token]
  = if forallb encodable
         (pad_token :: unk_token :: admitted d min_freq pad_token unk_token)
    then
      if str_eqb pad_token unk_token then None
      else Some (mkVocab (pad_token :: unk_token :: admitted d min_freq pad_token unk_token) None)
    else None.
Proof.
  intros H. unfold vocab, new_Vocab. simpl fold_left.
  fold (admitted d min_freq pad_token unk_token).
  change ([pad_token; unk_token] ++ admitted d min_freq pad_token unk_token)
    with (pad_token :: unk_token :: admitted d min_freq pad_token unk_token).
  destruct (forallb encodable
              (pad_token :: unk_token :: admitted d min_freq pad_token unk_token));
    [|reflexivity].
  destruct (str_eqb pad_token unk_token) eqn:E.
  - apply str_eqb_eq in E. subst unk_token. simpl.
    rewrite str_eqb_refl. reflexivity.
  - apply str_eqb_neq in E. rewrite add_tokens_NoDup; [reflexivity|]. simpl.
    pose proof (admitted_spec d min_freq pad_token unk_token) as A.
    constructor.
    + intros [Hin|Hin]; [congruence|]. apply A in Hin; [|exact H]. tauto.
    + constructor; [|apply admitted_NoDup; exact H].
      intros Hin. apply A in Hin; [|exact H]. tauto.
Qed.

(** What [create_vocab] returns. *)
Lemma create_vocab_result text tokenizer lemmatize unk_token pad_token :
  create_vocab text tokenizer lemmatize unk_token pad_token
  = if forallb encodable
         (pad_token :: unk_token
            :: admitted (Counter (map lemmatize (tokenizer text))) 10
                 pad_token unk_token)
    then
      if str_eqb pad_token unk_token then None
      else Some (mkVocab
                   (pad_token :: unk_token
                      :: admitted (Counter (map lemmatize (tokenizer text))) 10
                           pad_token unk_token)
                   (Some 1%Z))
    else None.
Proof.
  unfold create_vocab. rewrite vocab_two_specials by apply Counter_NoDup.
  destruct (forallb encodable _); [|reflexivity].
  destruct (str_eqb pad_token unk_token); reflexivity.
Qed.

Lemma admitted_Counter lemmas min_freq pad_token unk_token w :
  (0 < min_freq)%Z ->
  In w (admitted (Counter lemmas) min_freq pad_token unk_token)
  <-> w <> pad_token /\ w <> unk_token /\ (min_freq <= frequency w lemmas)%Z.
Proof.
  intros Hk. rewrite admitted_spec by apply Counter_NoDup.
  rewrite Counter_get, Counter_keys, <- frequency_pos. intuition lia.
Qed.

End Vocabulary.

(** ** Properties of [create_vocab] *)

Section CreateVocab.
Import Py Collections Torchtext.

Lemma admitted_none lemmas pad_token unk_token :
  (forall w, (frequency w lemmas < 10)%Z) ->
  admitted (Counter lemmas) 10 pad_token unk_token = [].
Proof.
  intros H. destruct (admitted (Counter lemmas) 10 pad_token unk_token) as [|w rest] eqn:E;
    [reflexivity|].
  assert (Hin : In w (admitted (Counter lemmas) 10 pad_token unk_token))
    by (rewrite E; left; reflexivity).
  apply admitted_Counter in Hin; [|lia]. specialize (H w). lia.
Qed.


End CreateVocab.



Lemma forallb_In_false {A} (f : A -> bool) l x :
  In x l -> f x = false -> forallb f l = false.
Proof.
  intros Hin Hx. destruct (forallb f l) eqn:E; [|reflexivity].
  rewrite forallb_forall in E. rewrite (E x Hin) in Hx. discriminate.
Qed.

Lemma forallb_false_In {A} (f : A -> bool) l :
  forallb f l = false -> exists x, In x l /\ f x = false.
Proof.
  induction l as [|y l IH]; [discriminate|]. simpl.
  destruct (f y) eqn:E.
  - intros H. destruct (IH H) as (x & Hin & Hx). exists x. split; [right|]; assumption.
  - intros _. exists y. split; [left; reflexivity|exact E].
Qed.

(** C3, as the code has it.  With two distinct reserved symbols,
    [create_vocab] succeeds on every corpus whose tokens reach torchtext
    as UTF-8 strings, that is when neither symbol and no lemma that occurs
    at least 10 times holds a surrogate code point; the Vocabulary it
    returns has the pad symbol at id 0 and the unk symbol at id 1; on a
    corpus without tokens, and on every corpus no lemma of which reaches
    the threshold, it holds these two entries and nothing else. *)
Theorem create_vocab_specials :
  forall (text : Py.str) (tokenizer : Py.str -> list Py.str)
         (lemmatize : Py.str -> Py.str) (unk_token pad_token : Py.str),
    pad_token <> unk_token ->
    Torchtext.encodable pad_token = true ->
    Torchtext.encodable unk_token = true ->
    (forall w, (10 <= frequency w (map lemmatize (tokenizer text)))%Z ->
               Torchtext.encodable w = true) ->
    exists v : Torchtext.Vocab,
      create_vocab text tokenizer lemmatize unk_token pad_token = Some v
      /\ nth_error (Torchtext.itos v) 0 = Some pad_token
      /\ nth_error (Torchtext.itos v) 1 = Some unk_token
      /\ Torchtext.getitem v pad_token = Some 0%Z
      /\ Torchtext.getitem v unk_token = Some 1%Z
      /\ (tokenizer text = [] -> Torchtext.itos v = [pad_token; unk_token])
      /\ ((forall w, (frequency w (map lemmatize (tokenizer text)) < 10)%Z) ->
          Torchtext.itos v = [pad_token; unk_token]).
Proof.
  intros text tokenizer lemmatize unk pad Hne Ep Eu Ew.
  rewrite create_vocab_result.
  assert (C : forallb Torchtext.encodable
                (pad :: unk
                   :: admitted (Collections.Counter (map lemmatize (tokenizer text)))
                        10 pad unk) = true).
  { apply forallb_forall. intros w [<-|[<-|Hin]]; [exact Ep|exact Eu|].
    apply Ew. apply admitted_Counter in Hin; [tauto|lia]. }
  rewrite C.
  assert (E : Py.str_eqb pad unk = false) by (apply str_eqb_neq; exact Hne).
  rewrite E. eexists. split; [reflexivity|].
  simpl Torchtext.itos. unfold Torchtext.getitem. simpl.
  rewrite !str_eqb_refl, E. repeat split.
  - intros H. rewrite H. reflexivity.
  - intros H. rewrite admitted_none by exact H. reflexivity.
Qed.

(** The reserved ids on a corpus of thirteen words, eleven of them "fit",
    with the symbols of [process_data]. *)
Lemma create_vocab_specials_witness :
  let text := Py.lit "fit fit fit fit fit fit fit fit fit fit dress dress fit" in
  exists v : Torchtext.Vocab,
    create_vocab text Py.split id_lemmatize (Py.lit "<unk>") (Py.lit "<pad>") = Some v
    /\ nth_error (Torchtext.itos v) 0 = Some (Py.lit "<pad>")
    /\ nth_error (Torchtext.itos v) 1 = Some (Py.lit "<unk>")
    /\ Torchtext.getitem v (Py.lit "<pad>") = Some 0%Z
    /\ Torchtext.getitem v (Py.lit "<unk>") = Some 1%Z
    /\ (Py.split text = [] -> Torchtext.itos v = [Py.lit "<pad>"; Py.lit "<unk>"])
    /\ ((forall w, (frequency w (map id_lemmatize (Py.split text)) < 10)%Z) ->
        Torchtext.itos v = [Py.lit "<pad>"; Py.lit "<unk>"]).
Proof.
  intros text.
  apply (create_vocab_specials text Py.split id_lemmatize (Py.lit "<unk>") (Py.lit "<pad>")).
  - vm_compute. discriminate.
  - reflexivity.
  - reflexivity.
  - intros w H.
    assert (Hin : In w (map id_lemmatize (Py.split text))) by (apply frequency_pos; lia).
    vm_compute in Hin.
    repeat (destruct Hin as [Hin|Hin]; [rewrite <- Hin; reflexivity|]).
    contradiction.
Defined.

(** C3 as the specification states it fails: a corpus of ten tokens that
    are each a lone surrogate makes [create_vocab] raise, the pad and unk
    symbols being those of [process_data]. *)
Lemma create_vocab_surrogate_counterexample :
  Py.lit "<pad>" <> Py.lit "<unk>"
  /\ create_vocab (concat (repeat [55296%N; 32%N] 10)) Py.split id_lemmatize
        (Py.lit "<unk>") (Py.lit "<pad>") = None
  /\ ~ (exists v : Torchtext.Vocab,
          create_vocab (concat (repeat [55296%N; 32%N] 10)) Py.split id_lemmatize
            (Py.lit "<unk>") (Py.lit "<pad>") = Some v).
Proof.
  split; [vm_compute; discriminate|].
  assert (E : create_vocab (concat (repeat [55296%N; 32%N] 10)) Py.split id_lemmatize
                (Py.lit "<unk>") (Py.lit "<pad>") = None)
    by (vm_compute; reflexivity).
  split; [exact E|]. intros (v & H). rewrite E in H. discriminate.
Qed.

(** ** Properties of [process_reviews] *)

Section Encoder.
Import Py.

Lemma list_mul_single {A} (x : A) n : list_mul [x] n = repeat x (Z.to_nat n).
Proof.
  unfold list_mul. induction (Z.to_nat n) as [|k IH]; simpl; [reflexivity|].
  rewrite IH. reflexivity.
Qed.

Lemma slice_to_nonneg {A} (l : list A) stop :
  (0 <= stop)%Z -> slice_to l stop = firstn (Z.to_nat stop) l.
Proof.
  intros H. unfold slice_to. destruct (stop <? 0)%Z eqn:E; [|reflexivity].
  apply Z.ltb_lt in E. lia.
Qed.

End Encoder.

(** C1. For a Vocabulary with a default index, as [create_vocab] builds
    it, every review and every length [max_len] (a length: not negative),
    [process_reviews] returns exactly [max_len] ids.  With [ids] the
    lookup of the lemmatized tokens of the cleaned review: a shorter [ids]
    is followed by pad ids 0 up to [max_len], a longer one is cut to its
    first [max_len] ids, and one of length [max_len] is returned as it
    is. *)
Theorem process_reviews_length :
  forall (unicode_lower : Py.str -> Py.char -> Py.str -> Py.str)
         (review : Py.str) (tokenizer : Py.str -> list Py.str)
         (lemmatize : Py.str -> Py.str) (vocabulary : Torchtext.Vocab)
         (max_len : Z),
    Torchtext.default_index vocabulary <> None ->
    (0 <= max_len)%Z ->
    exists ids out : list Z,
      Torchtext.forward vocabulary
        (map lemmatize (tokenizer (cleanup_text unicode_lower review))) = Some ids
      /\ process_reviews unicode_lower review tokenizer lemmatize vocabulary max_len
         = Some out
      /\ Py.len out = max_len
      /\ ((Py.len ids < max_len)%Z ->
          out = ids ++ repeat 0%Z (Z.to_nat (max_len - Py.len ids)))
      /\ ((Py.len ids > max_len)%Z -> out = firstn (Z.to_nat max_len) ids)
      /\ (Py.len ids = max_len -> out = ids).
Proof.
  intros ul review tokenizer lemmatize v L Hd HL.
  destruct (Torchtext.default_index v) as [d|] eqn:Ed; [clear Hd|congruence].
  destruct (forward_default v d
              (map lemmatize (tokenizer (cleanup_text ul review))) Ed)
    as (ids & E & _).
  exists ids. unfold process_reviews. rewrite E.
  unfold Py.len in *.
  destruct (Z.of_nat (length ids) <? L)%Z eqn:Elt.
  - apply Z.ltb_lt in Elt. eexists. split; [reflexivity|]. split; [reflexivity|].
    rewrite list_mul_single. split; [|split; [|split]].
    + rewrite length_app, repeat_length. lia.
    + reflexivity.
    + lia.
    + lia.
  - apply Z.ltb_ge in Elt. destruct (Z.of_nat (length ids) >? L)%Z eqn:Egt.
    + apply Z.gtb_lt in Egt. eexists. split; [reflexivity|]. split; [reflexivity|].
      rewrite slice_to_nonneg by exact HL. split; [|split; [|split]].
      * rewrite length_firstn. lia.
      * lia.
      * reflexivity.
      * lia.
    + assert (Hle : (Z.of_nat (length ids) <= L)%Z).
      { destruct (Z.gtb_spec (Z.of_nat (length ids)) L); [discriminate|lia]. }
      eexists. split; [reflexivity|]. split; [reflexivity|].
      split; [|split; [|split]]; try lia. reflexivity.
Qed.

(** A review of four tokens encoded to the length 6. *)
Lemma process_reviews_length_witness :
  let vocabulary :=
    Torchtext.mkVocab (map Py.lit ["<pad>"; "<unk>"; "great"; "dress"; "fit"]%string)
      (Some 1%Z) in
  exists ids out : list Z,
    Torchtext.forward vocabulary
      (map id_lemmatize
         (Py.split (cleanup_text no_unicode_lower (Py.lit "Great dress!!! Loved it"))))
    = Some ids
    /\ process_reviews no_unicode_lower (Py.lit "Great dress!!! Loved it") Py.split
         id_lemmatize vocabulary 6 = Some out
    /\ Py.len out = 6%Z
    /\ ((Py.len ids < 6)%Z -> out = ids ++ repeat 0%Z (Z.to_nat (6 - Py.len ids)))
    /\ ((Py.len ids > 6)%Z -> out = firstn (Z.to_nat 6) ids)
    /\ (Py.len ids = 6%Z -> out = ids).
Proof.
  intros vocabulary.
  apply (process_reviews_length no_unicode_lower (Py.lit "Great dress!!! Loved it")
           Py.split id_lemmatize vocabulary 6).
  - simpl. discriminate.
  - lia.
Defined.

(** ** The threshold of [create_vocab] *)

(** C8, as the code has it.  [create_vocab] takes no threshold from its
    caller and calls [vocab] with [min_freq = 10].  For every tokenizer
    that splits "great dress great fit" into its four words and every
    lemmatizer that leaves them as they are, the Vocabulary built from
    this corpus holds pad = 0 and unk = 1 and no lemma, and great, dress
    and fit look up to the unk id 1; the set great, dress, fit with the
    ids 2, 3, 4 is what the same [vocab] call gives at threshold 1. *)
Theorem create_vocab_fixed_threshold :
  forall (tokenizer : Py.str -> list Py.str) (lemmatize : Py.str -> Py.str),
    tokenizer (Py.lit "great dress great fit")
    = map Py.lit ["great"; "dress"; "great"; "fit"]%string ->
    (forall w, In w (map Py.lit ["great"; "dress"; "fit"]%string) -> lemmatize w = w) ->
    exists v : Torchtext.Vocab,
      create_vocab (Py.lit "great dress great fit") tokenizer lemmatize
        (Py.lit "<unk>") (Py.lit "<pad>") = Some v
      /\ Torchtext.itos v = [Py.lit "<pad>"; Py.lit "<unk>"]
      /\ Torchtext.forward v (map Py.lit ["great"; "dress"; "fit"]%string)
         = Some [1; 1; 1]%Z
      /\ Torchtext.vocab
           (Collections.Counter
              (map lemmatize (tokenizer (Py.lit "great dress great fit"))))
           1 [Py.lit "<pad>"; Py.lit "<unk>"]
         = Some (Torchtext.mkVocab
                   (map Py.lit ["<pad>"; "<unk>"; "great"; "dress"; "fit"]%string) None).
Proof.
  intros tokenizer lemmatize Ht Hl.
  assert (El : map lemmatize (tokenizer (Py.lit "great dress great fit"))
               = map Py.lit ["great"; "dress"; "great"; "fit"]%string).
  { rewrite Ht. simpl map.
    rewrite (Hl (Py.lit "great")) by (simpl; tauto).
    rewrite (Hl (Py.lit "dress")) by (simpl; tauto).
    rewrite (Hl (Py.lit "fit")) by (simpl; tauto). reflexivity. }
  unfold create_vocab. rewrite El.
  eexists. split; [vm_compute; reflexivity|].
  split; [reflexivity|]. split; vm_compute; reflexivity.
Qed.

(** The same with [str.split] as the tokenizer and a lemmatizer that
    returns its word. *)
Lemma create_vocab_fixed_threshold_witness :
  exists v : Torchtext.Vocab,
    create_vocab (Py.lit "great dress great fit") Py.split id_lemmatize
      (Py.lit "<unk>") (Py.lit "<pad>") = Some v
    /\ Torchtext.itos v = [Py.lit "<pad>"; Py.lit "<unk>"]
    /\ Torchtext.forward v (map Py.lit ["great"; "dress"; "fit"]%string)
       = Some [1; 1; 1]%Z
    /\ Torchtext.vocab
         (Collections.Counter
            (map id_lemmatize (Py.split (Py.lit "great dress great fit"))))
         1 [Py.lit "<pad>"; Py.lit "<unk>"]
       = Some (Torchtext.mkVocab
                 (map Py.lit ["<pad>"; "<unk>"; "great"; "dress"; "fit"]%string) None).
Proof.
  apply (create_vocab_fixed_threshold Py.split id_lemmatize).
  - vm_compute. reflexivity.
  - intros w _. reflexivity.
Defined.

(** C8 as the specification states it fails: built from "great dress
    great fit", the Vocabulary does not admit the set great, dress, fit. *)
Lemma create_vocab_min_freq_counterexample :
  exists v : Torchtext.Vocab,
    create_vocab (Py.lit "great dress great fit") Py.split id_lemmatize
      (Py.lit "<unk>") (Py.lit "<pad>") = Some v
    /\ ~ (forall w, In w (map Py.lit ["great"; "dress"; "fit"]%string)
                    <-> In w (skipn 2 (Torchtext.itos v)))
    /\ Torchtext.contains v (Py.lit "great") = false
    /\ Torchtext.getitem v (Py.lit "great") = Some 1%Z.
Proof.
  eexists. split; [vm_compute; reflexivity|]. split; [|split; reflexivity].
  intros H. destruct (H (Py.lit "great")) as [H1 _].
  simpl in H1. apply H1. left. reflexivity.
Qed.

(** ** The corpus of [process_data] *)

(** C9. The comment in [process_data] announces a corpus of the training
    and validation data and the concatenation [corpus_data] is computed,
    but the corpus that is cleaned and counted joins the training reviews
    only: the validation reviews never reach it. *)
Theorem process_data_corpus_training_only :
  (forall training_review validation_review : list Py.str,
      process_data_corpus training_review validation_review
      = Py.join [Chars.newline] training_review)
  /\ (forall unicode_lower word_tokenize lemmatize
             (training_review validation_review : list Py.str),
        process_data_vocabulary unicode_lower word_tokenize lemmatize
          training_review validation_review
        = process_data_vocabulary unicode_lower word_tokenize lemmatize
            training_review [])
  /\ process_data_corpus [Py.lit "good fit"] [Py.lit "poor fabric"] = Py.lit "good fit"
  /\ process_data_corpus [Py.lit "good fit"] [Py.lit "poor fabric"]
     <> Py.join [Chars.newline] ([Py.lit "good fit"] ++ [Py.lit "poor fabric"]).
Proof.
  split; [reflexivity|]. split; [reflexivity|]. split; [reflexivity|].
  vm_compute. discriminate.
Qed.

(** * Further properties of the code *)

(** ** [cleanup_text]: fixed points, kept characters, joined texts *)

Section NormalizerMore.
Import Py Re.

Variable unicode_lower : str -> char -> str -> str.

Lemma alphabet_kept_class c : In c alphabet -> kept_class c = true.
Proof.
  assert (H : forallb kept_class alphabet = true) by (vm_compute; reflexivity).
  rewrite forallb_forall in H. apply H.
Qed.

Lemma cleanup_text_simple_fixed text :
  Forall (fun c => kept_class c = true) text ->
  has_double Chars.dot text = false ->
  cleanup_text_simple unicode_lower text = text.
Proof.
  intros K D. unfold cleanup_text_simple, lower.
  rewrite (lower_from_kept unicode_lower [] text K), (filter_kept text K).
  apply collapse_dots_fixed. exact D.
Qed.

Lemma cleanup_text_twice text :
  cleanup_text unicode_lower (cleanup_text unicode_lower text)
  = cleanup_text unicode_lower text.
Proof.
  rewrite !cleanup_text_is_simple. apply cleanup_text_simple_fixed.
  - apply cleanup_text_simple_kept.
  - apply cleanup_text_simple_no_double.
Qed.

Lemma collapse_dots_single a : collapse_dots [a] = [a].
Proof. simpl. destruct (dot_class a); reflexivity. Qed.

Lemma filter_collapse_dots text :
  filter (fun c => negb (dot_class c)) (collapse_dots text)
  = filter (fun c => negb (dot_class c)) text.
Proof.
  induction text as [|a rest IH]; [reflexivity|].
  destruct (dot_class a) eqn:Ha.
  - destruct rest as [|b rest]; [rewrite collapse_dots_single; reflexivity|].
    destruct (dot_class b) eqn:Hb.
    + rewrite collapse_dots_inside by assumption. rewrite IH.
      simpl. rewrite Ha, Hb. reflexivity.
    + rewrite collapse_dots_last by assumption.
      rewrite collapse_dots_other in IH by assumption.
      change (filter (fun c => negb (dot_class c)) (a :: b :: collapse_dots rest))
        with (if negb (dot_class a)
              then a :: filter (fun c => negb (dot_class c)) (b :: collapse_dots rest)
              else filter (fun c => negb (dot_class c)) (b :: collapse_dots rest)).
      rewrite IH. simpl. rewrite Ha, Hb. reflexivity.
  - rewrite collapse_dots_other by assumption. simpl. rewrite Ha, IH. reflexivity.
Qed.

Lemma filter_twice {A} (f g : A -> bool) l :
  filter f (filter g l) = filter (fun x => g x && f x) l.
Proof.
  induction l as [|x l IH]; [reflexivity|]. simpl.
  destruct (g x); simpl; [|exact IH]. destruct (f x); rewrite IH; reflexivity.
Qed.

Lemma collapse_dots_length text : (length (collapse_dots text) <= length text)%nat.
Proof.
  induction text as [|a rest IH]; [simpl; lia|].
  destruct (dot_class a) eqn:Ha.
  - destruct rest as [|b rest]; [rewrite collapse_dots_single; simpl; lia|].
    destruct (dot_class b) eqn:Hb.
    + rewrite collapse_dots_inside by assumption. simpl in *. lia.
    + rewrite collapse_dots_last by assumption.
      rewrite collapse_dots_other in IH by assumption. simpl in *. lia.
  - rewrite collapse_dots_other by assumption. simpl. lia.
Qed.

(** Around a character that is no dot the collapse works on each side. *)
Lemma collapse_dots_split a c b :
  dot_class c = false ->
  collapse_dots (a ++ c :: b) = collapse_dots a ++ c :: collapse_dots b.
Proof.
  intros Hc. induction a as [|x a IH].
  - simpl app. apply collapse_dots_other. exact Hc.
  - destruct (dot_class x) eqn:Hx.
    + destruct a as [|y a].
      * change ([x] ++ c :: b) with (x :: c :: b).
        rewrite collapse_dots_last by assumption.
        rewrite (collapse_dots_single x). reflexivity.
      * destruct (dot_class y) eqn:Hy.
        -- change ((x :: y :: a) ++ c :: b) with (x :: y :: (a ++ c :: b)).
           rewrite !collapse_dots_inside by assumption. exact IH.
        -- change ((x :: y :: a) ++ c :: b) with (x :: y :: (a ++ c :: b)).
           rewrite !collapse_dots_last by assumption.
           change ((y :: a) ++ c :: b) with (y :: (a ++ c :: b)) in IH.
           rewrite !collapse_dots_other in IH by assumption.
           simpl in IH. injection IH as IH. rewrite IH. reflexivity.
    + change ((x :: a) ++ c :: b) with (x :: (a ++ c :: b)).
      rewrite !collapse_dots_other by assumption. rewrite IH. reflexivity.
Qed.

(** On ASCII text [str.lower] works character by character. *)
Lemma lower_from_ascii before text :
  is_ascii text = true -> lower_from unicode_lower before text = map ascii_lower text.
Proof.
  revert before. induction text as [|c rest IH]; intros before H; [reflexivity|].
  simpl in H. apply andb_true_iff in H. destruct H as [Hc Hrest].
  simpl. rewrite Hc, (IH _ Hrest). reflexivity.
Qed.

Lemma cleanup_text_ascii text :
  is_ascii text = true ->
  cleanup_text unicode_lower text
  = collapse_dots (filter kept_class (map ascii_lower text)).
Proof.
  intros H. rewrite cleanup_text_is_simple. unfold cleanup_text_simple, lower.
  rewrite lower_from_ascii by exact H. reflexivity.
Qed.

Lemma is_ascii_app a b : is_ascii (a ++ b) = is_ascii a && is_ascii b.
Proof. unfold is_ascii. apply forallb_app. Qed.

Lemma is_ascii_join parts :
  Forall (fun p => is_ascii p = true) parts ->
  is_ascii (join [Chars.newline] parts) = true.
Proof.
  induction 1 as [|p rest Hp Hrest IH]; [reflexivity|].
  destruct rest as [|q rest]; [exact Hp|].
  change (join [Chars.newline] (p :: q :: rest))
    with (p ++ [Chars.newline] ++ join [Chars.newline] (q :: rest)).
  rewrite !is_ascii_app, Hp, IH. reflexivity.
Qed.

End NormalizerMore.

(** X1. The texts [cleanup_text] leaves unchanged are exactly the texts
    over the alphabet in which no two dots are neighbours. *)
Theorem cleanup_text_fixed_points :
  forall (unicode_lower : Py.str -> Py.char -> Py.str -> Py.str) (s : Py.str),
    cleanup_text unicode_lower s = s
    <-> Forall (fun c => In c alphabet) s /\ has_double Chars.dot s = false.
Proof.
  intros ul s. split.
  - intros E. rewrite <- E. rewrite cleanup_text_is_simple. split.
    + eapply Forall_impl; [|apply cleanup_text_simple_kept].
      intros c H. apply kept_class_alphabet. exact H.
    + apply cleanup_text_simple_no_double.
  - intros [A D]. rewrite cleanup_text_is_simple.
    apply cleanup_text_simple_fixed; [|exact D].
    eapply Forall_impl; [|exact A]. intros c H. apply alphabet_kept_class. exact H.
Qed.

(** X2. Apart from dots, [cleanup_text] neither drops nor moves a
    character of its class: the characters of the result that are no dot
    are the characters of the lower-cased text that belong to the class
    and are no dot, in the same order and as many times. *)
Theorem cleanup_text_keeps_non_dots :
  forall (unicode_lower : Py.str -> Py.char -> Py.str -> Py.str) (s : Py.str),
    filter (fun c => negb (dot_class c)) (cleanup_text unicode_lower s)
    = filter (fun c => kept_class c && negb (dot_class c)) (Py.lower unicode_lower s).
Proof.
  intros ul s. rewrite cleanup_text_is_simple. unfold cleanup_text_simple.
  rewrite filter_collapse_dots. apply filter_twice.
Qed.

(** X3. On ASCII texts cleaning commutes with joining by newlines: the
    cleaned corpus is the cleaned reviews joined by newlines. *)
Theorem cleanup_text_join :
  forall (unicode_lower : Py.str -> Py.char -> Py.str -> Py.str) (parts : list Py.str),
    Forall (fun p => is_ascii p = true) parts ->
    cleanup_text unicode_lower (Py.join [Chars.newline] parts)
    = Py.join [Chars.newline] (map (cleanup_text unicode_lower) parts).
Proof.
  intros ul parts H.
  rewrite cleanup_text_ascii by (apply is_ascii_join; exact H).
  induction H as [|p rest Hp Hrest IH]; [reflexivity|].
  destruct rest as [|q rest].
  - simpl. symmetry. apply cleanup_text_ascii. exact Hp.
  - change (Py.join [Chars.newline] (p :: q :: rest))
      with (p ++ Chars.newline :: Py.join [Chars.newline] (q :: rest)).
    change (Py.join [Chars.newline] (map (cleanup_text ul) (p :: q :: rest)))
      with (cleanup_text ul p
              ++ Chars.newline
                   :: Py.join [Chars.newline] (map (cleanup_text ul) (q :: rest))).
    assert (F : forall t, filter kept_class (Py.ascii_lower Chars.newline :: t)
                          = Chars.newline :: filter kept_class t) by reflexivity.
    rewrite map_app, filter_app, map_cons, F.
    rewrite collapse_dots_split by reflexivity.
    rewrite IH. rewrite (cleanup_text_ascii ul p Hp). reflexivity.
Qed.

Lemma cleanup_text_join_witness :
  cleanup_text no_unicode_lower
    (Py.join [Chars.newline] [Py.lit "Great fit..."; Py.lit "Too SMALL!! 2/5"])
  = Py.join [Chars.newline]
      (map (cleanup_text no_unicode_lower)
         [Py.lit "Great fit..."; Py.lit "Too SMALL!! 2/5"]).
Proof.
  apply (cleanup_text_join no_unicode_lower
           [Py.lit "Great fit..."; Py.lit "Too SMALL!! 2/5"]).
  repeat constructor.
Defined.

(** X4. On an ASCII text the cleaned text is never longer than the
    text. *)
Theorem cleanup_text_ascii_length :
  forall (unicode_lower : Py.str -> Py.char -> Py.str -> Py.str) (s : Py.str),
    is_ascii s = true ->
    (Py.len (cleanup_text unicode_lower s) <= Py.len s)%Z.
Proof.
  intros ul s H. rewrite cleanup_text_ascii by exact H. unfold Py.len.
  pose proof (collapse_dots_length (filter kept_class (map Py.ascii_lower s))) as L1.
  pose proof (filter_length_le kept_class (map Py.ascii_lower s)) as L2.
  rewrite length_map in L2. lia.
Qed.

Lemma cleanup_text_ascii_length_witness :
  (Py.len (cleanup_text no_unicode_lower (Py.lit "Great fit... 5/5"))
   <= Py.len (Py.lit "Great fit... 5/5"))%Z.
Proof.
  apply (cleanup_text_ascii_length no_unicode_lower (Py.lit "Great fit... 5/5")).
  reflexivity.
Defined.

(** ** The vocabulary: order of the ids, lookups, size *)

Section VocabularyMore.
Import Py Collections Torchtext.

Lemma keys_incr_eq key d :
  keys (incr key d) = if member key (keys d) then keys d else keys d ++ [key].
Proof.
  induction d as [|[k n] rest IH]; [reflexivity|].
  change (member key (keys ((k, n) :: rest)))
    with (str_eqb key k || member key (keys rest)).
  change (keys ((k, n) :: rest)) with (k :: keys rest).
  simpl incr. rewrite (str_eqb_sym key k).
  destruct (str_eqb k key) eqn:E; [reflexivity|].
  change (keys ((k, n) :: incr key rest)) with (k :: keys (incr key rest)).
  rewrite IH. simpl orb. destruct (member key (keys rest)); reflexivity.
Qed.

Lemma keys_fold_incr items d :
  keys (fold_left (fun d key => incr key d) items d)
  = keys d ++ first_seen_from (keys d) items.
Proof.
  revert d. induction items as [|x rest IH]; intros d; simpl.
  - rewrite app_nil_r. reflexivity.
  - rewrite IH, keys_incr_eq. destruct (member x (keys d)); [reflexivity|].
    rewrite <- app_assoc. reflexivity.
Qed.

(** The keys of a counter are the distinct items in the order of their
    first occurrence. *)
Lemma Counter_keys_first_seen items : keys (Counter items) = first_seen items.
Proof. unfold Counter. rewrite keys_fold_incr. reflexivity. Qed.

Lemma filter_all {A} (f : A -> bool) l :
  (forall x, In x l -> f x = true) -> filter f l = l.
Proof.
  induction l as [|x l IH]; intros H; [reflexivity|]. simpl.
  rewrite (H x) by (left; reflexivity). rewrite IH; [reflexivity|].
  intros y Hy. apply H. right. exact Hy.
Qed.

Lemma keys_pop key d :
  NoDup (keys d) ->
  keys (pop key d) = filter (fun w => negb (str_eqb w key)) (keys d).
Proof.
  induction d as [|[k n] rest IH]; intros H; [reflexivity|].
  inversion H as [|? ? Hk Hrest]; subst. simpl.
  destruct (str_eqb k key) eqn:E; simpl.
  - apply str_eqb_eq in E. subst k. symmetry. apply filter_all.
    intros w Hw. apply negb_true_iff. apply str_eqb_neq. intros ->. contradiction.
  - rewrite <- IH by exact Hrest. reflexivity.
Qed.

Lemma map_fst_filter (P : str * Z -> bool) (Q : str -> bool) (d : dict) :
  (forall item, In item d -> P item = Q (fst item)) ->
  map fst (filter P d) = filter Q (map fst d).
Proof.
  induction d as [|item rest IH]; intros H; [reflexivity|]. simpl.
  rewrite <- (H item) by (left; reflexivity).
  destruct (P item); simpl; rewrite IH; try reflexivity;
    intros it Hit; apply H; right; exact Hit.
Qed.

(** The admitted tokens, read off the keys of the dict. *)
Lemma admitted_filter d min_freq pad_token unk_token :
  NoDup (keys d) ->
  admitted d min_freq pad_token unk_token
  = filter (fun w => (negb (str_eqb w pad_token) && negb (str_eqb w unk_token))
                     && (min_freq <=? get w d)%Z)
      (keys d).
Proof.
  intros H. unfold admitted.
  destruct (pop_NoDup pad_token d H) as [N1 _].
  rewrite (map_fst_filter _ (fun w => (min_freq <=? get w d)%Z)).
  - fold (keys (pop unk_token (pop pad_token d))).
    rewrite keys_pop by exact N1. rewrite keys_pop by exact H.
    rewrite !filter_twice. apply filter_ext. intros w. apply andb_assoc.
  - intros [w n] Hin. simpl. apply pop_In in Hin. apply pop_In in Hin.
    rewrite (In_get w n d H Hin). reflexivity.
Qed.

Lemma index_from_nth i w tokens n :
  NoDup tokens -> nth_error tokens n = Some w ->
  index_from i w tokens = Some (i + Z.of_nat n)%Z.
Proof.
  revert i n. induction tokens as [|t rest IH]; intros i n H E.
  - destruct n; discriminate.
  - inversion H as [|? ? Ht Hrest]; subst. destruct n as [|n]; simpl in *.
    + injection E as ->. rewrite str_eqb_refl. f_equal. lia.
    + destruct (str_eqb t w) eqn:Ew.
      * apply str_eqb_eq in Ew. subst t. exfalso. apply Ht.
        eapply nth_error_In. exact E.
      * rewrite (IH (i + 1)%Z n Hrest E). f_equal. lia.
Qed.

Lemma index_from_Some i w tokens j :
  index_from i w tokens = Some j ->
  (i <= j < i + len tokens)%Z /\ nth_error tokens (Z.to_nat (j - i)) = Some w.
Proof.
  revert i. induction tokens as [|t rest IH]; intros i E; [discriminate|].
  simpl in E. unfold len in *. simpl length.
  destruct (str_eqb t w) eqn:Ew.
  - injection E as <-. apply str_eqb_eq in Ew. subst t.
    rewrite Z.sub_diag. split; [lia|reflexivity].
  - destruct (IH _ E) as [R N]. split; [lia|].
    replace (Z.to_nat (j - i)) with (S (Z.to_nat (j - (i + 1)))) by lia.
    exact N.
Qed.

Lemma index_from_In i w tokens :
  In w tokens -> exists j, index_from i w tokens = Some j.
Proof.
  intros H. destruct (index_from i w tokens) as [j|] eqn:E; [eauto|].
  exfalso. revert i E. induction tokens as [|t rest IH]; intros i E; [contradiction|].
  simpl in E. destruct (str_eqb t w) eqn:Ew; [discriminate|].
  apply str_eqb_neq in Ew. destruct H as [H|H]; [contradiction|].
  exact (IH H _ E).
Qed.

Lemma frequency_filter_other w x items :
  w <> x ->
  frequency w (filter (fun y => negb (str_eqb x y)) items) = frequency w items.
Proof.
  intros H. unfold frequency. rewrite filter_twice.
  rewrite (filter_ext (fun y => negb (str_eqb x y) && str_eqb w y) (str_eqb w));
    [reflexivity|].
  intros y. destruct (str_eqb w y) eqn:E.
  - apply str_eqb_eq in E. subst y.
    assert (N : str_eqb x w = false) by (apply str_eqb_neq; congruence).
    rewrite N. reflexivity.
  - apply andb_false_r.
Qed.

Lemma length_filter_split (f : str -> bool) items :
  (length (filter f items) + length (filter (fun y => negb (f y)) items)
   = length items)%nat.
Proof.
  induction items as [|y rest IH]; [reflexivity|]. simpl.
  destruct (f y); simpl; lia.
Qed.

(** Distinct items that each occur [k] times take [k] places each. *)
Lemma frequent_items_bound k ws items :
  (0 <= k)%Z -> NoDup ws -> (forall w, In w ws -> (k <= frequency w items)%Z) ->
  (k * len ws <= len items)%Z.
Proof.
  intros Hk N. revert items. induction N as [|w ws Hw N IH]; intros items H.
  - unfold len. simpl. lia.
  - pose proof (length_filter_split (str_eqb w) items) as S.
    assert (F : (k <= frequency w items)%Z) by (apply H; left; reflexivity).
    specialize (IH (filter (fun y => negb (str_eqb w y)) items)).
    assert (B : (k * len ws <= len (filter (fun y => negb (str_eqb w y)) items))%Z).
    { apply IH. intros w' Hw'. rewrite frequency_filter_other.
      - apply H. right. exact Hw'.
      - intros ->. contradiction. }
    unfold frequency, len in *. simpl length. lia.
Qed.

Lemma create_vocab_Some text tokenizer lemmatize unk_token pad_token v :
  create_vocab text tokenizer lemmatize unk_token pad_token = Some v ->
  pad_token <> unk_token
  /\ v = mkVocab
           (pad_token :: unk_token
              :: admitted (Counter (map lemmatize (tokenizer text))) 10
                   pad_token unk_token)
           (Some 1%Z).
Proof.
  rewrite create_vocab_result. destruct (forallb encodable _); [|discriminate].
  destruct (str_eqb pad_token unk_token) eqn:E; [discriminate|].
  intros H. injection H as <-. split; [|reflexivity]. apply str_eqb_neq. exact E.
Qed.

Lemma create_vocab_NoDup text tokenizer lemmatize unk_token pad_token v :
  create_vocab text tokenizer lemmatize unk_token pad_token = Some v ->
  NoDup (itos v).
Proof.
  intros H. apply create_vocab_Some in H. destruct H as [Hne ->]. simpl.
  pose proof (fun w => admitted_Counter (map lemmatize (tokenizer text)) 10
                         pad_token unk_token w ltac:(lia)) as A.
  constructor.
  - intros [Hin|Hin]; [congruence|]. apply A in Hin. tauto.
  - constructor; [|apply admitted_NoDup; apply Counter_NoDup].
    intros Hin. apply A in Hin. tauto.
Qed.

End VocabularyMore.

(** X5. [create_vocab] raises exactly when the pad symbol and the unk
    symbol are the same string, or one of them cannot be encoded as UTF-8,
    or some lemma that occurs at least 10 times in the corpus cannot: a
    lemma that occurs less often never reaches torchtext. *)
Theorem create_vocab_fails_iff :
  forall (text : Py.str) (tokenizer : Py.str -> list Py.str)
         (lemmatize : Py.str -> Py.str) (unk_token pad_token : Py.str),
    create_vocab text tokenizer lemmatize unk_token pad_token = None
    <-> pad_token = unk_token
        \/ Torchtext.encodable pad_token = false
        \/ Torchtext.encodable unk_token = false
        \/ exists w, (10 <= frequency w (map lemmatize (tokenizer text)))%Z
                     /\ Torchtext.encodable w = false.
Proof.
  intros text tokenizer lemmatize unk pad. rewrite create_vocab_result.
  set (lemmas := map lemmatize (tokenizer text)).
  set (tokens := pad :: unk :: admitted (Collections.Counter lemmas) 10 pad unk).
  pose proof (fun w => admitted_Counter lemmas 10 pad unk w ltac:(lia)) as A.
  split.
  - destruct (forallb Torchtext.encodable tokens) eqn:C.
    + destruct (Py.str_eqb pad unk) eqn:E; [|discriminate].
      intros _. left. apply str_eqb_eq. exact E.
    + intros _. apply forallb_false_In in C. destruct C as (w & Hin & Hw).
      destruct Hin as [<-|[<-|Hin]]; [tauto|tauto|].
      right. right. right. exists w. split; [|exact Hw]. apply A in Hin. tauto.
  - assert (F : forall w, In w tokens -> Torchtext.encodable w = false ->
                  (if forallb Torchtext.encodable tokens
                   then if Py.str_eqb pad unk then None
                        else Some (Torchtext.mkVocab tokens (Some 1%Z))
                   else None) = None).
    { intros w Hin Hw. rewrite (forallb_In_false _ tokens w Hin Hw). reflexivity. }
    intros [E|[Hp|[Hu|(w & Hf & Hw)]]].
    + subst unk. rewrite str_eqb_refl.
      destruct (forallb Torchtext.encodable tokens); reflexivity.
    + apply (F pad); [left; reflexivity|exact Hp].
    + apply (F unk); [right; left; reflexivity|exact Hu].
    + destruct (Py.str_eqb w pad) eqn:Ewp.
      { apply str_eqb_eq in Ewp. subst w. apply (F pad); [left; reflexivity|exact Hw]. }
      destruct (Py.str_eqb w unk) eqn:Ewu.
      { apply str_eqb_eq in Ewu. subst w.
        apply (F unk); [right; left; reflexivity|exact Hw]. }
      apply str_eqb_neq in Ewp, Ewu.
      apply (F w); [|exact Hw]. right. right. apply A. tauto.
Qed.

(** X6. Every lemma that occurs at least 10 times in the corpus and is
    not one of the two reserved symbols is in the Vocabulary, with an id
    of its own from 2 on. *)
Theorem create_vocab_admits_frequent :
  forall (text : Py.str) (tokenizer : Py.str -> list Py.str)
         (lemmatize : Py.str -> Py.str) (unk_token pad_token : Py.str)
         (v : Torchtext.Vocab) (w : Py.str),
    create_vocab text tokenizer lemmatize unk_token pad_token = Some v ->
    w <> pad_token -> w <> unk_token ->
    (10 <= frequency w (map lemmatize (tokenizer text)))%Z ->
    Torchtext.contains v w = true
    /\ exists i, Torchtext.getitem v w = Some i
                 /\ (2 <= i < Py.len (Torchtext.itos v))%Z.
Proof.
  intros text tokenizer lemmatize unk pad v w H Hp Hu Hf.
  apply create_vocab_Some in H. destruct H as [_ ->].
  set (adm := admitted (Collections.Counter (map lemmatize (tokenizer text))) 10 pad unk).
  assert (Hin : In w adm).
  { apply admitted_Counter; [lia|]. tauto. }
  split.
  - unfold Torchtext.contains. apply member_In. simpl. right. right. exact Hin.
  - destruct (index_from_In 2 w adm Hin) as (j & Ej).
    exists j. unfold Torchtext.getitem. simpl.
    assert (E1 : Py.str_eqb pad w = false) by (apply str_eqb_neq; congruence).
    assert (E2 : Py.str_eqb unk w = false) by (apply str_eqb_neq; congruence).
    rewrite E1, E2. simpl. rewrite Ej. split; [reflexivity|].
    apply index_from_Some in Ej. destruct Ej as [R _].
    unfold Py.len in *. simpl length. lia.
Qed.

Lemma create_vocab_admits_frequent_witness :
  let text := Py.lit "fit fit fit fit fit fit fit fit fit fit dress dress fit" in
  let v := Torchtext.mkVocab [Py.lit "<pad>"; Py.lit "<unk>"; Py.lit "fit"] (Some 1%Z) in
  Torchtext.contains v (Py.lit "fit") = true
  /\ exists i, Torchtext.getitem v (Py.lit "fit") = Some i
               /\ (2 <= i < Py.len (Torchtext.itos v))%Z.
Proof.
  intros text v.
  apply (create_vocab_admits_frequent text Py.split id_lemmatize
           (Py.lit "<unk>") (Py.lit "<pad>") v (Py.lit "fit")).
  - vm_compute. reflexivity.
  - vm_compute. discriminate.
  - vm_compute. discriminate.
  - vm_compute. discriminate.
Defined.

(** X7. In a Vocabulary built by [create_vocab] no token is stored twice
    and a lookup inverts the id order: the token at position [n] looks up
    to [n], and a stored token that looks up to [i] is the token at
    position [i]. *)
Theorem create_vocab_lookup_round_trip :
  forall (text : Py.str) (tokenizer : Py.str -> list Py.str)
         (lemmatize : Py.str -> Py.str) (unk_token pad_token : Py.str)
         (v : Torchtext.Vocab),
    create_vocab text tokenizer lemmatize unk_token pad_token = Some v ->
    NoDup (Torchtext.itos v)
    /\ (forall n w, nth_error (Torchtext.itos v) n = Some w ->
          Torchtext.getitem v w = Some (Z.of_nat n))
    /\ (forall w i, Torchtext.contains v w = true ->
          Torchtext.getitem v w = Some i ->
          nth_error (Torchtext.itos v) (Z.to_nat i) = Some w).
Proof.
  intros text tokenizer lemmatize unk pad v H.
  pose proof (create_vocab_NoDup _ _ _ _ _ _ H) as N.
  split; [exact N|]. split.
  - intros n w E. unfold Torchtext.getitem.
    rewrite (index_from_nth 0 w (Torchtext.itos v) n N E). reflexivity.
  - intros w i C G. unfold Torchtext.contains in C. apply member_In in C.
    destruct (index_from_In 0 w (Torchtext.itos v) C) as (j & Ej).
    unfold Torchtext.getitem in G. rewrite Ej in G. injection G as <-.
    apply index_from_Some in Ej. destruct Ej as [_ Ej].
    rewrite Z.sub_0_r in Ej. exact Ej.
Qed.

Lemma create_vocab_lookup_round_trip_witness :
  let text := Py.lit "fit fit fit fit fit fit fit fit fit fit dress dress fit" in
  let v := Torchtext.mkVocab [Py.lit "<pad>"; Py.lit "<unk>"; Py.lit "fit"] (Some 1%Z) in
  NoDup (Torchtext.itos v)
  /\ (forall n w, nth_error (Torchtext.itos v) n = Some w ->
        Torchtext.getitem v w = Some (Z.of_nat n))
  /\ (forall w i, Torchtext.contains v w = true ->
        Torchtext.getitem v w = Some i ->
        nth_error (Torchtext.itos v) (Z.to_nat i) = Some w).
Proof.
  intros text v.
  apply (create_vocab_lookup_round_trip text Py.split id_lemmatize
           (Py.lit "<unk>") (Py.lit "<pad>") v).
  vm_compute. reflexivity.
Defined.

(** X8. The ids follow the corpus: behind the pad symbol at 0 and the unk
    symbol at 1 come, in the order of their first occurrence in the
    lemmatized corpus, the lemmas other than the two symbols that occur
    at least 10 times. *)
Theorem create_vocab_first_seen_order :
  forall (text : Py.str) (tokenizer : Py.str -> list Py.str)
         (lemmatize : Py.str -> Py.str) (unk_token pad_token : Py.str)
         (v : Torchtext.Vocab),
    create_vocab text tokenizer lemmatize unk_token pad_token = Some v ->
    let lemmas := map lemmatize (tokenizer text) in
    Torchtext.itos v
    = pad_token :: unk_token
        :: filter (fun w => (negb (Py.str_eqb w pad_token)
                             && negb (Py.str_eqb w unk_token))
                            && (10 <=? frequency w lemmas)%Z)
             (first_seen lemmas).
Proof.
  intros text tokenizer lemmatize unk pad v H lemmas.
  apply create_vocab_Some in H. destruct H as [_ ->]. simpl. fold lemmas.
  rewrite admitted_filter by apply Counter_NoDup.
  rewrite Counter_keys_first_seen. do 2 f_equal.
  apply filter_ext. intros w. rewrite Counter_get. reflexivity.
Qed.

Lemma create_vocab_first_seen_order_witness :
  let text := Py.lit "fit fit fit fit fit fit fit fit fit fit dress dress fit" in
  let v := Torchtext.mkVocab [Py.lit "<pad>"; Py.lit "<unk>"; Py.lit "fit"] (Some 1%Z) in
  let lemmas := map id_lemmatize (Py.split text) in
  Torchtext.itos v
  = Py.lit "<pad>" :: Py.lit "<unk>"
      :: filter (fun w => (negb (Py.str_eqb w (Py.lit "<pad>"))
                           && negb (Py.str_eqb w (Py.lit "<unk>")))
                          && (10 <=? frequency w lemmas)%Z)
           (first_seen lemmas).
Proof.
  intros text v.
  apply (create_vocab_first_seen_order text Py.split id_lemmatize
           (Py.lit "<unk>") (Py.lit "<pad>") v).
  vm_compute. reflexivity.
Defined.

(** X9. The Vocabulary is small: every entry behind the two reserved
    symbols stands for at least 10 tokens of the corpus, so ten times the
    number of these entries is at most the number of tokens. *)
Theorem create_vocab_size :
  forall (text : Py.str) (tokenizer : Py.str -> list Py.str)
         (lemmatize : Py.str -> Py.str) (unk_token pad_token : Py.str)
         (v : Torchtext.Vocab),
    create_vocab text tokenizer lemmatize unk_token pad_token = Some v ->
    (10 * (Py.len (Torchtext.itos v) - 2) <= Py.len (tokenizer text))%Z.
Proof.
  intros text tokenizer lemmatize unk pad v H.
  apply create_vocab_Some in H. destruct H as [_ ->]. simpl Torchtext.itos.
  set (lemmas := map lemmatize (tokenizer text)).
  set (adm := admitted (Collections.Counter lemmas) 10 pad unk).
  assert (B : (10 * Py.len adm <= Py.len lemmas)%Z).
  { apply frequent_items_bound; [lia| |].
    - apply admitted_NoDup. apply Counter_NoDup.
    - intros w Hin. apply admitted_Counter in Hin; [tauto|lia]. }
  unfold Py.len in *. unfold lemmas in B. rewrite length_map in B.
  simpl length. lia.
Qed.

Lemma create_vocab_size_witness :
  let text := Py.lit "fit fit fit fit fit fit fit fit fit fit dress dress fit" in
  let v := Torchtext.mkVocab [Py.lit "<pad>"; Py.lit "<unk>"; Py.lit "fit"] (Some 1%Z) in
  (10 * (Py.len (Torchtext.itos v) - 2) <= Py.len (Py.split text))%Z.
Proof.
  intros text v.
  apply (create_vocab_size text Py.split id_lemmatize
           (Py.lit "<unk>") (Py.lit "<pad>") v).
  vm_compute. reflexivity.
Defined.

(** ** [process_reviews]: ids in range, prefixes, errors *)

Section EncoderMore.
Import Py Torchtext.

Lemma firstn_repeat_le {A} (x : A) n m :
  (n <= m)%nat -> firstn n (repeat x m) = repeat x n.
Proof.
  revert m. induction n as [|n IH]; intros m H; [reflexivity|].
  destruct m as [|m]; [lia|]. simpl. rewrite IH by lia. reflexivity.
Qed.

Lemma process_reviews_reconcile (unicode_lower : str -> char -> str -> str)
    review tokenizer lemmatize v max_len :
  process_reviews unicode_lower review tokenizer lemmatize v max_len
  = option_map (fun ids => reconcile ids max_len)
      (forward v (map lemmatize (tokenizer (cleanup_text unicode_lower review)))).
Proof.
  unfold process_reviews, reconcile.
  destruct (forward v _) as [ids|]; [|reflexivity]. simpl.
  destruct (len ids <? max_len)%Z; [reflexivity|].
  destruct (len ids >? max_len)%Z; reflexivity.
Qed.

Lemma reconcile_nonneg ids max_len :
  (0 <= max_len)%Z ->
  reconcile ids max_len
  = firstn (Z.to_nat max_len) (ids ++ repeat 0%Z (Z.to_nat max_len)).
Proof.
  intros H. unfold reconcile, len. rewrite list_mul_single.
  destruct (Z.of_nat (length ids) <? max_len)%Z eqn:Elt.
  - apply Z.ltb_lt in Elt. rewrite firstn_app.
    rewrite firstn_all2 by lia. f_equal.
    rewrite firstn_repeat_le by lia. f_equal. lia.
  - apply Z.ltb_ge in Elt.
    assert (E : firstn (Z.to_nat max_len) (ids ++ repeat 0%Z (Z.to_nat max_len))
                = firstn (Z.to_nat max_len) ids).
    { rewrite firstn_app.
      replace (Z.to_nat max_len - length ids)%nat with 0%nat by lia.
      simpl. apply app_nil_r. }
    rewrite E. destruct (Z.of_nat (length ids) >? max_len)%Z eqn:Egt.
    + apply slice_to_nonneg. exact H.
    + assert (Z.of_nat (length ids) <= max_len)%Z
        by (destruct (Z.gtb_spec (Z.of_nat (length ids)) max_len); [discriminate|lia]).
      symmetry. apply firstn_all2. lia.
Qed.

Lemma reconcile_negative ids max_len :
  (max_len < 0)%Z ->
  reconcile ids max_len = firstn (Z.to_nat (len ids + max_len)) ids.
Proof.
  intros H. unfold reconcile, slice_to, len.
  assert (E1 : (Z.of_nat (length ids) <? max_len)%Z = false) by (apply Z.ltb_ge; lia).
  assert (E2 : (Z.of_nat (length ids) >? max_len)%Z = true) by (apply Z.gtb_lt; lia).
  assert (E3 : (max_len <? 0)%Z = true) by (apply Z.ltb_lt; exact H).
  rewrite E1, E2, E3. reflexivity.
Qed.

Lemma Forall_firstn_keep {A} (P : A -> Prop) n l : Forall P l -> Forall P (firstn n l).
Proof.
  intros H. revert n. induction H as [|x l Hx _ IH]; intros [|n]; simpl;
    constructor; auto.
Qed.

Lemma reconcile_Forall (P : Z -> Prop) ids max_len :
  P 0%Z -> Forall P ids -> Forall P (reconcile ids max_len).
Proof.
  intros P0 H. unfold reconcile, slice_to. rewrite list_mul_single.
  destruct (len ids <? max_len)%Z.
  - apply Forall_app. split; [exact H|]. apply Forall_forall.
    intros x Hx. apply repeat_spec in Hx. subst. exact P0.
  - destruct (len ids >? max_len)%Z; [|exact H].
    destruct (max_len <? 0)%Z; apply Forall_firstn_keep; exact H.
Qed.



(** Without a default index the lookup fails on the first token that is
    not stored. *)
Lemma forward_None v tokens :
  default_index v = None ->
  forward v tokens = None <-> exists w, In w tokens /\ contains v w = false.
Proof.
  intros Hd. induction tokens as [|t rest IH]; simpl.
  - split; [discriminate|]. intros (w & [] & _).
  - destruct (getitem v t) as [i|] eqn:G.
    + assert (Ct : contains v t = true).
      { unfold getitem in G. unfold contains.
        destruct (member t (itos v)) eqn:M; [reflexivity|].
        apply member_not_In in M. rewrite index_from_None in G by exact M.
        rewrite Hd in G. discriminate. }
      destruct (forward v rest) as [ids|].
      * split; [discriminate|]. intros (w & [Hw|Hw] & C).
        -- subst w. rewrite Ct in C. discriminate.
        -- destruct IH as [_ IH].
           assert (X : Some ids = None) by (apply IH; exists w; split; assumption).
           discriminate.
      * split; [|reflexivity]. intros _.
        destruct IH as [IH _]. destruct (IH eq_refl) as (w & Hw & C).
        exists w. split; [right; exact Hw|exact C].
    + split; [|reflexivity]. intros _. exists t.
      split; [left; reflexivity|].
      unfold contains. apply member_not_In. intros Hin.
      destruct (index_from_In 0 t (itos v) Hin) as (j & Ej).
      unfold getitem in G. rewrite Ej in G. discriminate.
Qed.

End EncoderMore.



Lemma firstn_pad_prefix (ids : list Z) n1 n2 :
  (n1 <= n2)%nat ->
  firstn n1 (ids ++ repeat 0%Z n1) = firstn n1 (firstn n2 (ids ++ repeat 0%Z n2)).
Proof.
  intros H. rewrite firstn_firstn.
  replace (Nat.min n1 n2) with n1 by lia.
  rewrite !firstn_app. f_equal.
  rewrite !firstn_repeat_le by lia. reflexivity.
Qed.

(** X11. Encodings to two lengths agree: for [0 <= l1 <= l2] the encoding
    of a review to length [l1] is the first [l1] ids of its encoding to
    length [l2]. *)
Theorem process_reviews_prefix :
  forall (unicode_lower : Py.str -> Py.char -> Py.str -> Py.str)
         (review : Py.str) (tokenizer : Py.str -> list Py.str)
         (lemmatize : Py.str -> Py.str) (vocabulary : Torchtext.Vocab)
         (l1 l2 : Z),
    Torchtext.default_index vocabulary <> None ->
    (0 <= l1 <= l2)%Z ->
    exists out1 out2 : list Z,
      process_reviews unicode_lower review tokenizer lemmatize vocabulary l1 = Some out1
      /\ process_reviews unicode_lower review tokenizer lemmatize vocabulary l2 = Some out2
      /\ out1 = firstn (Z.to_nat l1) out2.
Proof.
  intros ul review tokenizer lemmatize v l1 l2 Hd HL.
  destruct (Torchtext.default_index v) as [d|] eqn:Ed; [clear Hd|congruence].
  destruct (forward_default v d
              (map lemmatize (tokenizer (cleanup_text ul review))) Ed)
    as (ids & E & _).
  rewrite !process_reviews_reconcile, E. simpl.
  eexists. eexists. split; [reflexivity|]. split; [reflexivity|].
  rewrite !reconcile_nonneg by lia.
  apply firstn_pad_prefix. lia.
Qed.

Lemma process_reviews_prefix_witness :
  let vocabulary :=
    Torchtext.mkVocab (map Py.lit ["<pad>"; "<unk>"; "great"; "dress"; "fit"]%string)
      (Some 1%Z) in
  exists out1 out2 : list Z,
    process_reviews no_unicode_lower (Py.lit "Great dress, great fit") Py.split
      id_lemmatize vocabulary 3 = Some out1
    /\ process_reviews no_unicode_lower (Py.lit "Great dress, great fit") Py.split
         id_lemmatize vocabulary 6 = Some out2
    /\ out1 = firstn (Z.to_nat 3) out2.
Proof.
  intros vocabulary.
  apply (process_reviews_prefix no_unicode_lower (Py.lit "Great dress, great fit")
           Py.split id_lemmatize vocabulary 3 6).
  - simpl. discriminate.
  - lia.
Defined.

(** X12. [process_reviews] cleans its review itself: a review that was
    cleaned before is encoded as the raw review is. *)
Theorem process_reviews_cleaned_review :
  forall (unicode_lower : Py.str -> Py.char -> Py.str -> Py.str)
         (review : Py.str) (tokenizer : Py.str -> list Py.str)
         (lemmatize : Py.str -> Py.str) (vocabulary : Torchtext.Vocab)
         (max_len : Z),
    process_reviews unicode_lower (cleanup_text unicode_lower review) tokenizer
      lemmatize vocabulary max_len
    = process_reviews unicode_lower review tokenizer lemmatize vocabulary max_len.
Proof.
  intros ul review tokenizer lemmatize v L. unfold process_reviews.
  rewrite cleanup_text_twice. reflexivity.
Qed.

(** X13. With a Vocabulary that has no default index, [process_reviews]
    raises exactly when some lemma of the review is not stored in the
    Vocabulary. *)
Theorem process_reviews_error :
  forall (unicode_lower : Py.str -> Py.char -> Py.str -> Py.str)
         (review : Py.str) (tokenizer : Py.str -> list Py.str)
         (lemmatize : Py.str -> Py.str) (vocabulary : Torchtext.Vocab)
         (max_len : Z),
    Torchtext.default_index vocabulary = None ->
    process_reviews unicode_lower review tokenizer lemmatize vocabulary max_len = None
    <-> exists w,
          In w (map lemmatize (tokenizer (cleanup_text unicode_lower review)))
          /\ Torchtext.contains vocabulary w = false.
Proof.
  intros ul review tokenizer lemmatize v L Hd.
  rewrite <- (forward_None v _ Hd). rewrite process_reviews_reconcile.
  destruct (Torchtext.forward v _); simpl; split; congruence.
Qed.

Lemma process_reviews_error_witness :
  let vocabulary :=
    Torchtext.mkVocab (map Py.lit ["<pad>"; "<unk>"; "great"; "dress"; "fit"]%string)
      None in
  process_reviews no_unicode_lower (Py.lit "Great dress, poor fit") Py.split
    id_lemmatize vocabulary 6 = None
  <-> exists w,
        In w (map id_lemmatize
                (Py.split (cleanup_text no_unicode_lower (Py.lit "Great dress, poor fit"))))
        /\ Torchtext.contains vocabulary w = false.
Proof.
  intros vocabulary.
  apply (process_reviews_error no_unicode_lower (Py.lit "Great dress, poor fit")
           Py.split id_lemmatize vocabulary 6).
  reflexivity.
Defined.

(** X14. A negative [max_len] is taken as a slice bound: the encoding is
    the looked-up ids without their last [- max_len], never longer than
    the review and with no padding. *)
Theorem process_reviews_negative_max_len :
  forall (unicode_lower : Py.str -> Py.char -> Py.str -> Py.str)
         (review : Py.str) (tokenizer : Py.str -> list Py.str)
         (lemmatize : Py.str -> Py.str) (vocabulary : Torchtext.Vocab)
         (max_len : Z),
    Torchtext.default_index vocabulary <> None ->
    (max_len < 0)%Z ->
    exists ids out : list Z,
      Torchtext.forward vocabulary
        (map lemmatize (tokenizer (cleanup_text unicode_lower review))) = Some ids
      /\ process_reviews unicode_lower review tokenizer lemmatize vocabulary max_len
         = Some out
      /\ out = firstn (Z.to_nat (Py.len ids + max_len)) ids
      /\ Py.len out = Z.max 0 (Py.len ids + max_len).
Proof.
  intros ul review tokenizer lemmatize v L Hd HL.
  destruct (Torchtext.default_index v) as [d|] eqn:Ed; [clear Hd|congruence].
  destruct (forward_default v d
              (map lemmatize (tokenizer (cleanup_text ul review))) Ed)
    as (ids & E & _).
  exists ids. rewrite process_reviews_reconcile, E. simpl.
  eexists. split; [reflexivity|]. split; [reflexivity|].
  rewrite reconcile_negative by exact HL. split; [reflexivity|].
  unfold Py.len. rewrite length_firstn. lia.
Qed.

Lemma process_reviews_negative_max_len_witness :
  let vocabulary :=
    Torchtext.mkVocab (map Py.lit ["<pad>"; "<unk>"; "great"; "dress"; "fit"]%string)
      (Some 1%Z) in
  exists ids out : list Z,
    Torchtext.forward vocabulary
      (map id_lemmatize
         (Py.split (cleanup_text no_unicode_lower (Py.lit "Great dress, great fit"))))
    = Some ids
    /\ process_reviews no_unicode_lower (Py.lit "Great dress, great fit") Py.split
         id_lemmatize vocabulary (-1) = Some out
    /\ out = firstn (Z.to_nat (Py.len ids + -1)) ids
    /\ Py.len out = Z.max 0 (Py.len ids + -1).
Proof.
  intros vocabulary.
  apply (process_reviews_negative_max_len no_unicode_lower
           (Py.lit "Great dress, great fit") Py.split id_lemmatize vocabulary (-1)).
  - simpl. discriminate.
  - lia.
Defined.

(** ** The table steps of [process_data] *)

(** [rating_to_sentiment] as an interval test. *)
Lemma rating_to_sentiment_values :
  forall rating : Z,
    (rating_to_sentiment rating = 0%Z <-> (1 <= rating <= 3)%Z)
    /\ (rating_to_sentiment rating = 1%Z <-> (rating < 1 \/ 3 < rating)%Z).
Proof.
  intros r. unfold rating_to_sentiment. simpl.
  destruct (Z.eqb_spec r 1); [simpl; split; split; intros; try lia; discriminate|].
  destruct (Z.eqb_spec r 2); [simpl; split; split; intros; try lia; discriminate|].
  destruct (Z.eqb_spec r 3); [simpl; split; split; intros; try lia; discriminate|].
  simpl. split; split; intros; try lia; try discriminate; reflexivity.
Qed.

Section Table.
Import Py Frame.

Lemma dropna_In r data :
  In r (dropna data)
  <-> In (mk_raw (Some (rated_review r)) (Some (rating r)) (Some (rated_category r))) data.
Proof.
  unfold dropna. rewrite in_flat_map. split.
  - intros ([[text|] [stars|] [category|]] & Hin & H); simpl in H; try contradiction.
    destruct H as [<-|[]]. exact Hin.
  - intros Hin. eexists. split; [exact Hin|]. simpl. left.
    destruct r; reflexivity.
Qed.

Lemma filter_map_swap {A B} (f : A -> B) (g : B -> bool) l :
  filter g (map f l) = map f (filter (fun x => g (f x)) l).
Proof.
  induction l as [|x l IH]; [reflexivity|]. simpl.
  destruct (g (f x)); simpl; rewrite IH; reflexivity.
Qed.

Lemma filter_none {A} (l : list A) : filter (fun _ => false) l = [].
Proof. induction l as [|x l IH]; [reflexivity|exact IH]. Qed.

(** A category keeps all its rows or none. *)
Lemma group_len_filter_categories category data :
  group_len category (filter_categories data)
  = if (group_len category data >? 10)%Z then group_len category data else 0%Z.
Proof.
  unfold filter_categories, group_len at 1. rewrite filter_twice.
  rewrite (filter_ext_in _
             (fun r => (group_len category data >? 10)%Z
                       && str_eqb (rated_category r) category)).
  - destruct (group_len category data >? 10)%Z; simpl.
    + reflexivity.
    + rewrite filter_none. reflexivity.
  - intros r _. destruct (str_eqb (rated_category r) category) eqn:Ec.
    + apply str_eqb_eq in Ec. rewrite Ec. reflexivity.
    + rewrite !andb_false_r. reflexivity.
Qed.

Lemma filter_categories_In r data :
  In r (filter_categories data)
  <-> In r data /\ (10 < group_len (rated_category r) data)%Z.
Proof.
  unfold filter_categories. rewrite filter_In.
  rewrite Z.gtb_ltb, Z.ltb_lt. reflexivity.
Qed.

Lemma to_sentiment_group_len category data :
  len (filter (fun r => str_eqb (product_category r) category) (to_sentiment data))
  = group_len category data.
Proof.
  unfold to_sentiment, group_len, len. rewrite filter_map_swap, length_map.
  reflexivity.
Qed.

End Table.

Lemma process_data_transformed_rows_aux data r :
  In r (process_data_transformed data) ->
  (10 < Frame.group_len (Frame.product_category r) (Frame.dropna data))%Z.
Proof.
  unfold process_data_transformed, Frame.to_sentiment. rewrite in_map_iff.
  intros (x & <- & Hin). apply filter_categories_In in Hin. apply Hin.
Qed.

(** X16. The rows of the transformed table: a row is in it exactly when
    it comes from a row of the file without a missing cell, its sentiment
    being the one of that row's rating, whose category has more than 10
    rows without a missing cell. *)
Theorem process_data_transformed_rows :
  forall (data : list Frame.raw_row) (r : Frame.row),
    In r (process_data_transformed data)
    <-> (exists stars : Z,
            In (Frame.mk_raw (Some (Frame.review r)) (Some stars)
                  (Some (Frame.product_category r))) data
            /\ Frame.sentiment r = rating_to_sentiment stars)
        /\ (10 < Frame.group_len (Frame.product_category r) (Frame.dropna data))%Z.
Proof.
  intros data r. unfold process_data_transformed, Frame.to_sentiment.
  rewrite in_map_iff. split.
  - intros (x & <- & Hin). apply filter_categories_In in Hin.
    destruct Hin as [Hin G]. apply dropna_In in Hin. simpl.
    split; [|exact G]. exists (Frame.rating x). split; [exact Hin|reflexivity].
  - intros ((stars & Hin & Hs) & G).
    exists (Frame.mk_rated (Frame.review r) stars (Frame.product_category r)).
    split.
    + simpl. rewrite <- Hs. destruct r; reflexivity.
    + apply filter_categories_In. split; [|exact G].
      apply dropna_In. exact Hin.
Qed.

(** X17. In the transformed table a category has all of its rows without
    a missing cell, when these are more than 10, and no row otherwise: a
    category with exactly 10 such rows is removed, and every category
    that is left has at least 11 rows. *)
Theorem process_data_transformed_categories :
  forall (data : list Frame.raw_row),
    let rows_of category table :=
      Py.len (filter (fun r => Py.str_eqb (Frame.product_category r) category) table) in
    (forall category,
        rows_of category (process_data_transformed data)
        = if (Frame.group_len category (Frame.dropna data) >? 10)%Z
          then Frame.group_len category (Frame.dropna data) else 0%Z)
    /\ Forall (fun r => (11 <= rows_of (Frame.product_category r)
                                  (process_data_transformed data))%Z)
         (process_data_transformed data).
Proof.
  intros data rows_of.
  assert (C : forall category,
             rows_of category (process_data_transformed data)
             = if (Frame.group_len category (Frame.dropna data) >? 10)%Z
               then Frame.group_len category (Frame.dropna data) else 0%Z).
  { intros category. unfold rows_of, process_data_transformed.
    rewrite to_sentiment_group_len. apply group_len_filter_categories. }
  split; [exact C|]. apply Forall_forall. intros r Hin.
  rewrite C. apply process_data_transformed_rows_aux in Hin.
  rewrite (proj2 (Z.gtb_lt _ _)) by lia. lia.
Qed.

Section Balance.
Import Py.

Lemma filter_nothing {A} (f : A -> bool) l :
  (forall x, In x l -> f x = false) -> filter f l = [].
Proof.
  induction l as [|x l IH]; intros H; [reflexivity|]. simpl.
  rewrite (H x) by (left; reflexivity). apply IH.
  intros y Hy. apply H. right. exact Hy.
Qed.

Lemma sentiment_group_In s data r :
  In r (sentiment_group s data) <-> In r data /\ Frame.sentiment r = s.
Proof.
  unfold sentiment_group. rewrite filter_In, Z.eqb_eq. reflexivity.
Qed.

Lemma firstn_incl {A} n (l : list A) : incl (firstn n l) l.
Proof.
  revert n. induction l as [|x l IH]; intros [|n] y H; simpl in *;
    try contradiction.
  destruct H as [H|H]; [left; exact H|right; exact (IH n y H)].
Qed.

End Balance.

(** X18. The balancing step, for a draw that returns [n] rows of the
    group it draws from.  When both sentiments occur in the transformed
    table, the balanced table has as many rows of sentiment 0 as of
    sentiment 1, namely the size of the smaller of the two groups, it has
    no other row, and all its rows are rows of the transformed table. *)
Theorem process_data_balanced_counts :
  forall (sample : list Frame.row -> nat -> list Frame.row)
         (data : list Frame.raw_row),
    (forall group n, (n <= length group)%nat -> length (sample group n) = n) ->
    (forall group n, incl (sample group n) group) ->
    sentiment_group 0 (process_data_transformed data) <> [] ->
    sentiment_group 1 (process_data_transformed data) <> [] ->
    let smaller :=
      Nat.min (length (sentiment_group 0 (process_data_transformed data)))
              (length (sentiment_group 1 (process_data_transformed data))) in
    let balanced := process_data_balanced sample data in
    length (sentiment_group 0 balanced) = smaller
    /\ length (sentiment_group 1 balanced) = smaller
    /\ length balanced = (2 * smaller)%nat
    /\ incl balanced (process_data_transformed data).
Proof.
  intros sample data Hlen Hincl N0 N1 smaller balanced.
  set (dt := process_data_transformed data) in *.
  set (g0 := sentiment_group 0 dt) in *. set (g1 := sentiment_group 1 dt) in *.
  assert (M : min_group_size dt = smaller).
  { unfold min_group_size. fold g0 g1. unfold smaller.
    destruct g0 as [|a0 g0']; [congruence|]. destruct g1 as [|a1 g1']; [congruence|].
    reflexivity. }
  assert (B : balanced = sample g0 smaller ++ sample g1 smaller).
  { unfold balanced, process_data_balanced. fold dt g0 g1. rewrite M.
    destruct g0 as [|a0 g0']; [congruence|]. destruct g1 as [|a1 g1']; [congruence|].
    reflexivity. }
  assert (L0 : length (sample g0 smaller) = smaller) by (apply Hlen; unfold smaller; lia).
  assert (L1 : length (sample g1 smaller) = smaller) by (apply Hlen; unfold smaller; lia).
  assert (S0 : forall r, In r (sample g0 smaller) -> Frame.sentiment r = 0%Z).
  { intros r Hr. apply Hincl in Hr. apply sentiment_group_In in Hr. apply Hr. }
  assert (S1 : forall r, In r (sample g1 smaller) -> Frame.sentiment r = 1%Z).
  { intros r Hr. apply Hincl in Hr. apply sentiment_group_In in Hr. apply Hr. }
  rewrite B. unfold sentiment_group at 1 2. rewrite !filter_app.
  rewrite (filter_all _ (sample g0 smaller))
    by (intros r Hr; rewrite (S0 r Hr); reflexivity).
  rewrite (filter_nothing _ (sample g1 smaller))
    by (intros r Hr; rewrite (S1 r Hr); reflexivity).
  rewrite (filter_nothing _ (sample g0 smaller))
    by (intros r Hr; rewrite (S0 r Hr); reflexivity).
  rewrite (filter_all _ (sample g1 smaller))
    by (intros r Hr; rewrite (S1 r Hr); reflexivity).
  rewrite app_nil_r. simpl app. split; [exact L0|].
  split; [exact L1|]. split; [rewrite length_app; lia|].
  intros r Hr. apply in_app_or in Hr.
  destruct Hr as [Hr|Hr]; apply Hincl in Hr; apply sentiment_group_In in Hr; apply Hr.
Qed.

Lemma process_data_balanced_counts_witness :
  let sample := fun (group : list Frame.row) (n : nat) => firstn n group in
  let data :=
    repeat (Frame.mk_raw (Some (Py.lit "lovely")) (Some 5%Z) (Some (Py.lit "Dresses"))) 8
      ++ repeat (Frame.mk_raw (Some (Py.lit "too small")) (Some 2%Z) (Some (Py.lit "Dresses"))) 4 in
  let smaller :=
    Nat.min (length (sentiment_group 0 (process_data_transformed data)))
            (length (sentiment_group 1 (process_data_transformed data))) in
  let balanced := process_data_balanced sample data in
  length (sentiment_group 0 balanced) = smaller
  /\ length (sentiment_group 1 balanced) = smaller
  /\ length balanced = (2 * smaller)%nat
  /\ incl balanced (process_data_transformed data).
Proof.
  intros sample data.
  apply (process_data_balanced_counts sample data).
  - intros group n H. unfold sample. apply firstn_length_le. exact H.
  - intros group n. unfold sample. apply firstn_incl.
  - vm_compute. discriminate.
  - vm_compute. discriminate.
Defined.


(** ** Tensors and the [dataset] *)

Section Tensors.
Import Py.

Lemma tensor2_check (dataframe : list (list Z * Z)) (first : list Z) :
  (forall p, In p dataframe -> length (fst p) = length first) ->
  integral dataframe ->
  forallb (fun r => Nat.eqb (length r) (length first)) (map fst dataframe)
  && forallb (forallb Torch.in_int64) (map fst dataframe) = true.
Proof.
  intros R I. apply andb_true_iff. split; apply forallb_forall; intros r Hr;
    apply in_map_iff in Hr; destruct Hr as (p & <- & Hp).
  - apply Nat.eqb_eq. apply R. exact Hp.
  - unfold integral in I. rewrite Forall_forall in I. apply (I p Hp).
Qed.

Lemma tensor1_check (dataframe : list (list Z * Z)) :
  integral dataframe -> forallb Torch.in_int64 (map snd dataframe) = true.
Proof.
  intros I. apply forallb_forall. intros s Hs. apply in_map_iff in Hs.
  destruct Hs as (p & <- & Hp). unfold integral in I.
  rewrite Forall_forall in I. apply (I p Hp).
Qed.

Lemma combine_columns {B} (h : list Z * list Z -> B) (dataframe : list (list Z * Z)) :
  map h (combine (map fst dataframe) (map (fun x => [x]) (map snd dataframe)))
  = map (fun p => h (fst p, [snd p])) dataframe.
Proof.
  induction dataframe as [|p rest IH]; [reflexivity|]. simpl. rewrite IH. reflexivity.
Qed.

Lemma no_ids_rectangular p rest :
  rectangular (p :: rest) ->
  no_ids (p :: rest) = match fst p with [] => true | _ => false end.
Proof.
  intros R. unfold no_ids. simpl. destruct (fst p) as [|i ids] eqn:E; [|reflexivity].
  simpl. apply forallb_forall. intros q Hq.
  assert (L : length (fst q) = length (fst p))
    by (apply R; [right; exact Hq|left; reflexivity]).
  rewrite E in L. destruct (fst q); [reflexivity|discriminate].
Qed.

Lemma no_ids_false p dataframe :
  In p dataframe -> fst p <> [] -> no_ids dataframe = false.
Proof.
  intros Hp Hne. destruct (no_ids dataframe) eqn:E; [|reflexivity].
  unfold no_ids in E. rewrite forallb_forall in E. specialize (E p Hp).
  destruct (fst p); [contradiction|discriminate].
Qed.

Lemma tensor2_columns p rest :
  rectangular (p :: rest) -> integral (p :: rest) ->
  Torch.tensor2 (map fst (p :: rest))
  = Some (Torch.mk_tensor (match fst p with [] => Torch.Float32 | _ => Torch.Int64 end)
            (map fst (p :: rest))).
Proof.
  intros R I.
  assert (C := tensor2_check (p :: rest) (fst p)
                 (fun q Hq => R q p Hq (or_introl eq_refl)) I).
  cbn [map] in *. unfold Torch.tensor2. rewrite C. reflexivity.
Qed.

Lemma tensor1_columns p rest :
  integral (p :: rest) ->
  Torch.tensor1 (map snd (p :: rest)) = Some (Torch.Int64, map snd (p :: rest)).
Proof.
  intros I. assert (C := tensor1_check (p :: rest) I).
  cbn [map] in *. unfold Torch.tensor1. rewrite C. reflexivity.
Qed.

(** What [convert_to_tensor] builds from a table it accepts. *)
Lemma convert_to_tensor_ok float32 dataframe :
  rectangular dataframe -> integral dataframe ->
  convert_to_tensor float32 dataframe
  = Some (Torch.mk_tensor
            (if no_ids dataframe then Torch.Float32 else Torch.Int64)
            (map (fun p => fst p ++ [if no_ids dataframe then float32 (snd p)
                                     else snd p])
               dataframe)).
Proof.
  intros R I. destruct dataframe as [|p rest]; [reflexivity|].
  rewrite (no_ids_rectangular p rest R).
  unfold convert_to_tensor.
  rewrite (tensor2_columns p rest R I), (tensor1_columns p rest I).
  unfold Torch.cat1, Torch.unsqueeze1. cbn [Torch.rows Torch.dtype_of fst snd].
  rewrite !length_map, Nat.eqb_refl. rewrite combine_columns.
  destruct (fst p) as [|i ids]; reflexivity.
Qed.

Lemma tensor2_conditions values t :
  Torch.tensor2 values = Some t ->
  (forall a b, In a values -> In b values -> length a = length b)
  /\ Forall (fun r => forallb Torch.in_int64 r = true) values.
Proof.
  unfold Torch.tensor2. destruct values as [|first rest].
  - intros _. split; [intros a b []|constructor].
  - set (values := first :: rest).
    destruct (forallb (fun r => Nat.eqb (length r) (length first)) values) eqn:E1;
      [|discriminate].
    destruct (forallb (forallb Torch.in_int64) values) eqn:E2; [|discriminate].
    intros _. rewrite forallb_forall in E1, E2. split.
    + intros a b Ha Hb. apply E1 in Ha, Hb. apply Nat.eqb_eq in Ha, Hb. congruence.
    + apply Forall_forall. exact E2.
Qed.

Lemma convert_to_tensor_conditions float32 dataframe t :
  convert_to_tensor float32 dataframe = Some t ->
  rectangular dataframe /\ integral dataframe.
Proof.
  unfold convert_to_tensor.
  destruct (Torch.tensor2 (map fst dataframe)) as [t2|] eqn:E2; [|discriminate].
  apply tensor2_conditions in E2. destruct E2 as [R I].
  unfold Torch.tensor1.
  destruct (forallb Torch.in_int64 (map snd dataframe)) eqn:E1; [|discriminate].
  intros _. rewrite forallb_forall in E1. rewrite Forall_forall in I. split.
  - intros p q Hp Hq. apply R; apply in_map; assumption.
  - apply Forall_forall. intros p Hp. split.
    + apply I. apply in_map. exact Hp.
    + apply E1. apply in_map. exact Hp.
Qed.

Lemma getitem_index {A} (t : list A) (index : Z) :
  Torch.getitem t index
  = if (- len t <=? index)%Z && (index <? len t)%Z
    then nth_error t (Z.to_nat (index mod len t)) else None.
Proof.
  unfold Torch.getitem, len. set (n := Z.of_nat (length t)).
  destruct (index <? 0)%Z eqn:Eneg.
  - apply Z.ltb_lt in Eneg.
    destruct (- n <=? index)%Z eqn:Elo.
    + apply Z.leb_le in Elo.
      assert (E1 : (0 <=? index + n)%Z = true) by (apply Z.leb_le; lia).
      assert (E2 : (index + n <? n)%Z = true) by (apply Z.ltb_lt; lia).
      assert (E3 : (index <? n)%Z = true) by (apply Z.ltb_lt; lia).
      rewrite E1, E2, E3. simpl.
      assert (M : (index mod n = index + n)%Z).
      { symmetry. apply (Z.mod_unique index n (-1)); lia. }
      rewrite M. reflexivity.
    + apply Z.leb_gt in Elo.
      assert (E1 : (0 <=? index + n)%Z = false) by (apply Z.leb_gt; lia).
      rewrite E1. reflexivity.
  - apply Z.ltb_ge in Eneg.
    assert (E1 : (0 <=? index)%Z = true) by (apply Z.leb_le; lia).
    assert (E2 : (- n <=? index)%Z = true) by (apply Z.leb_le; lia).
    rewrite E1, E2. simpl. destruct (index <? n)%Z eqn:Ehi; [|reflexivity].
    apply Z.ltb_lt in Ehi. rewrite Z.mod_small by lia. reflexivity.
Qed.

Lemma series_apply_total {A B} (f : A -> option B) (g : A -> B) column :
  (forall x, In x column -> f x = Some (g x)) ->
  series_apply f column = Some (map g column).
Proof.
  induction column as [|x rest IH]; intros H; [reflexivity|]. simpl.
  rewrite (H x) by (left; reflexivity).
  rewrite IH by (intros y Hy; apply H; right; exact Hy). reflexivity.
Qed.

Lemma combine_map_same {A B C} (f : A -> B) (g : A -> C) l :
  combine (map f l) (map g l) = map (fun x => (f x, g x)) l.
Proof. induction l as [|x l IH]; [reflexivity|]. simpl. rewrite IH. reflexivity. Qed.

End Tensors.

Section Pipeline.
Import Py Torchtext.

Lemma forward_map v d tokens :
  default_index v = Some d ->
  forward v tokens = Some (map (id_or_default v d) tokens).
Proof.
  intros Hd. induction tokens as [|t rest IH]; [reflexivity|]. simpl.
  rewrite IH. unfold getitem, id_or_default. rewrite Hd.
  destruct (index_from 0 t (itos v)); reflexivity.
Qed.

Lemma id_or_default_int64 v d w :
  Torch.in_int64 d = true -> (len (itos v) <= 2 ^ 63)%Z ->
  Torch.in_int64 (id_or_default v d w) = true.
Proof.
  intros Hd Hv. unfold id_or_default.
  destruct (index_from 0 w (itos v)) as [i|] eqn:E; [|exact Hd].
  apply index_from_Some in E. destruct E as [R _].
  unfold Torch.in_int64. apply andb_true_iff. split.
  - apply Z.leb_le. lia.
  - apply Z.ltb_lt. lia.
Qed.

Lemma reconcile_length ids max_len :
  (0 <= max_len)%Z -> length (reconcile ids max_len) = Z.to_nat max_len.
Proof.
  intros H. rewrite reconcile_nonneg by exact H.
  rewrite length_firstn, length_app, repeat_length. lia.
Qed.

End Pipeline.

Lemma convert_to_tensor_rows float32 (dataframe : list (list Z * Z)) :
  rectangular dataframe -> integral dataframe ->
  (forall p, In p dataframe -> fst p <> []) ->
  convert_to_tensor float32 dataframe
  = Some (Torch.mk_tensor
            (match dataframe with [] => Torch.Float32 | _ => Torch.Int64 end)
            (map (fun p => fst p ++ [snd p]) dataframe)).
Proof.
  intros R I N. rewrite convert_to_tensor_ok by assumption.
  destruct dataframe as [|p rest]; [reflexivity|].
  rewrite (no_ids_false p (p :: rest)); [reflexivity|left; reflexivity|].
  apply N. left. reflexivity.
Qed.

(** X19. [convert_to_tensor] returns a tensor exactly when the reviews of
    the table have one length and every id and every sentiment is a 64-bit
    integer.  The tensor then has, for each row of the table in order, the
    ids of the review followed by the sentiment; it is an integer tensor,
    except for a table whose reviews hold no id, where it is a float32
    tensor of the rounded sentiments. *)
Theorem convert_to_tensor_result :
  forall (float32 : Z -> Z) (dataframe : list (list Z * Z)) (t : Torch.tensor2d),
    convert_to_tensor float32 dataframe = Some t
    <-> rectangular dataframe
        /\ integral dataframe
        /\ t = Torch.mk_tensor
                 (if no_ids dataframe then Torch.Float32 else Torch.Int64)
                 (map (fun p => fst p ++ [if no_ids dataframe then float32 (snd p)
                                          else snd p])
                    dataframe).
Proof.
  intros float32 dataframe t. split.
  - intros H. destruct (convert_to_tensor_conditions float32 dataframe t H) as [R I].
    split; [exact R|]. split; [exact I|].
    rewrite (convert_to_tensor_ok float32 dataframe R I) in H.
    injection H as <-. reflexivity.
  - intros (R & I & ->). apply convert_to_tensor_ok; assumption.
Qed.

(** Indexing a [dataset], with the index taken modulo its length. *)
Lemma dataset_getitem_index :
  forall (self : dataset) (index : Z),
    dataset_getitem self index
    = (if (- dataset_len self <=? index)%Z && (index <? dataset_len self)%Z
       then nth_error (Torch.rows (data self))
              (Z.to_nat (index mod dataset_len self))
       else None)
    /\ (dataset_getitem self index = None
        <-> (index < - dataset_len self \/ dataset_len self <= index)%Z).
Proof.
  intros self index. unfold dataset_getitem, dataset_len.
  rewrite getitem_index. split; [reflexivity|].
  set (t := Torch.rows (data self)).
  destruct (- Py.len t <=? index)%Z eqn:Elo;
    destruct (index <? Py.len t)%Z eqn:Ehi; simpl;
    try apply Z.leb_le in Elo; try apply Z.leb_gt in Elo;
    try apply Z.ltb_lt in Ehi; try apply Z.ltb_ge in Ehi;
    try (split; [intros _; lia|reflexivity]).
  split; [|lia]. intros H. apply nth_error_None in H.
  pose proof (Z.mod_pos_bound index (Py.len t)) as B.
  unfold Py.len in *. lia.
Qed.

(** X21. From the reviews of a split to its [dataset].  With a Vocabulary
    that has a default index and at most 2^63 tokens, a length
    [max_len > 0] and 64-bit sentiments, [process_data] gets a [dataset]
    for the split: an integer tensor when the split has a row, with one
    item per row of the split, the item at the position of a row being
    the encoding of its review, [max_len] ids, followed by its
    sentiment. *)
Theorem process_data_dataset_rows :
  forall (unicode_lower : Py.str -> Py.char -> Py.str -> Py.str)
         (float32 : Z -> Z)
         (word_tokenize : Py.str -> list Py.str) (lemmatize : Py.str -> Py.str)
         (vocabulary : Torchtext.Vocab) (d : Z) (max_len : Z)
         (split_data : list Frame.row),
    Torchtext.default_index vocabulary = Some d ->
    Torch.in_int64 d = true ->
    (Py.len (Torchtext.itos vocabulary) <= 2 ^ 63)%Z ->
    (0 < max_len)%Z ->
    Forall (fun r => Torch.in_int64 (Frame.sentiment r) = true) split_data ->
    exists ds : dataset,
      process_data_dataset unicode_lower float32 word_tokenize lemmatize vocabulary
        max_len split_data = Some ds
      /\ dataset_len ds = Py.len split_data
      /\ (split_data <> [] -> Torch.dtype_of (data ds) = Torch.Int64)
      /\ forall (n : nat) (r : Frame.row),
           nth_error split_data n = Some r ->
           exists out : list Z,
             process_reviews unicode_lower (Frame.review r) word_tokenize lemmatize
               vocabulary max_len = Some out
             /\ Py.len out = max_len
             /\ dataset_getitem ds (Z.of_nat n) = Some (out ++ [Frame.sentiment r]).
Proof.
  intros ul float32 tok lem v d L split_data Hd Id Hv HL Hs.
  set (encode := fun review : Py.str =>
         reconcile (map (id_or_default v d) (map lem (tok (cleanup_text ul review)))) L).
  assert (P : forall review,
             process_reviews ul review tok lem v L = Some (encode review)).
  { intros review. rewrite process_reviews_reconcile.
    rewrite (forward_map v d _ Hd). reflexivity. }
  assert (EL : forall review, length (encode review) = Z.to_nat L).
  { intros review. apply reconcile_length. lia. }
  assert (EI : forall review, forallb Torch.in_int64 (encode review) = true).
  { intros review. apply forallb_forall. apply Forall_forall.
    apply (reconcile_Forall (fun i => Torch.in_int64 i = true)); [reflexivity|].
    apply Forall_forall. intros i Hi. apply in_map_iff in Hi.
    destruct Hi as (w & <- & _). apply id_or_default_int64; assumption. }
  set (df := map (fun r => (encode (Frame.review r), Frame.sentiment r)) split_data).
  set (rows := map (fun r => encode (Frame.review r) ++ [Frame.sentiment r]) split_data).
  assert (C : convert_to_tensor float32 df
              = Some (Torch.mk_tensor
                        (match df with [] => Torch.Float32 | _ => Torch.Int64 end)
                        rows)).
  { rewrite convert_to_tensor_rows.
    - unfold rows, df. rewrite map_map. reflexivity.
    - intros p q Hp Hq. unfold df in Hp, Hq. apply in_map_iff in Hp, Hq.
      destruct Hp as (rp & <- & _). destruct Hq as (rq & <- & _).
      simpl. rewrite !EL. reflexivity.
    - apply Forall_forall. intros p Hp. unfold df in Hp. apply in_map_iff in Hp.
      destruct Hp as (rp & <- & Hin). simpl. split; [apply EI|].
      rewrite Forall_forall in Hs. apply Hs. exact Hin.
    - intros p Hp. unfold df in Hp. apply in_map_iff in Hp.
      destruct Hp as (r & <- & _). simpl. intros E.
      pose proof (EL (Frame.review r)) as X. rewrite E in X. simpl in X. lia. }
  eexists. split.
  { unfold process_data_dataset.
    rewrite (series_apply_total _ encode) by (intros x _; apply P).
    rewrite map_map, combine_map_same. fold df. rewrite C. reflexivity. }
  cbn [data Torch.rows Torch.dtype_of]. split; [|split].
  - unfold dataset_len, Py.len, rows. cbn [data Torch.rows].
    rewrite length_map. reflexivity.
  - intros Hne. unfold df. destruct split_data as [|r rest]; [congruence|].
    reflexivity.
  - intros n r Hn. exists (encode (Frame.review r)). split; [apply P|]. split.
    + unfold Py.len. rewrite EL. lia.
    + unfold dataset_getitem. cbn [data Torch.rows]. rewrite getitem_index.
      assert (Hlt : (n < length split_data)%nat)
        by (apply nth_error_Some; congruence).
      assert (Lr : Py.len rows = Z.of_nat (length split_data))
        by (unfold Py.len, rows; rewrite length_map; reflexivity).
      rewrite Lr.
      assert (E1 : (- Z.of_nat (length split_data) <=? Z.of_nat n)%Z = true)
        by (apply Z.leb_le; lia).
      assert (E2 : (Z.of_nat n <? Z.of_nat (length split_data))%Z = true)
        by (apply Z.ltb_lt; lia).
      rewrite E1, E2. simpl. rewrite Z.mod_small by lia. rewrite Nat2Z.id.
      unfold rows. rewrite nth_error_map, Hn. reflexivity.
Qed.

Lemma process_data_dataset_rows_witness :
  let vocabulary :=
    Torchtext.mkVocab (map Py.lit ["<pad>"; "<unk>"; "great"; "dress"; "fit"]%string)
      (Some 1%Z) in
  let split_data :=
    [Frame.mk_row (Py.lit "Great dress") 1 (Py.lit "Dresses");
     Frame.mk_row (Py.lit "Poor fit, poor fabric, poor value") 0 (Py.lit "Dresses")] in
  exists ds : dataset,
    process_data_dataset no_unicode_lower (fun z => z) Py.split id_lemmatize vocabulary
      4 split_data = Some ds
    /\ dataset_len ds = Py.len split_data
    /\ (split_data <> [] -> Torch.dtype_of (data ds) = Torch.Int64)
    /\ forall (n : nat) (r : Frame.row),
         nth_error split_data n = Some r ->
         exists out : list Z,
           process_reviews no_unicode_lower (Frame.review r) Py.split id_lemmatize
             vocabulary 4 = Some out
           /\ Py.len out = 4%Z
           /\ dataset_getitem ds (Z.of_nat n) = Some (out ++ [Frame.sentiment r]).
Proof.
  intros vocabulary split_data.
  apply (process_data_dataset_rows no_unicode_lower (fun z => z) Py.split id_lemmatize
           vocabulary 1 4 split_data).
  - reflexivity.
  - reflexivity.
  - vm_compute. discriminate.
  - lia.
  - repeat constructor.
Defined.

(** X22. Dropping the small categories once is enough: no category of the
    filtered table has 10 rows or fewer, so the filter applied again
    removes nothing. *)
Theorem filter_categories_idempotent :
  forall data : list Frame.rated_row,
    Frame.filter_categories (Frame.filter_categories data)
    = Frame.filter_categories data.
Proof.
  intros data. unfold Frame.filter_categories at 1. apply filter_all.
  intros r Hr. apply filter_categories_In in Hr. destruct Hr as [_ G].
  rewrite group_len_filter_categories.
  assert (E : (Frame.group_len (Frame.rated_category r) data >? 10)%Z = true)
    by (apply Z.gtb_lt; exact G).
  rewrite E. exact E.
Qed.

(** ** Running the further definitions *)

Lemma first_seen_spec items :
  NoDup (first_seen items) /\ forall w, In w (first_seen items) <-> In w items.
Proof.
  rewrite <- Counter_keys_first_seen. split.
  - apply Counter_NoDup.
  - intros w. apply Counter_keys.
Qed.

(** [str.split] splits on the Unicode spaces too, here a no-break space. *)
Example split_ex1 :
  Py.split (Py.lit "great" ++ [160%N] ++ Py.lit "fit " ++ [8232%N] ++ Py.lit "ok")
  = map Py.lit ["great"; "fit"; "ok"]%string.
Proof. vm_compute. reflexivity. Qed.

(** A lone surrogate that occurs fewer than 10 times never reaches the
    constructor. *)
Example create_vocab_ex4 :
  option_map Torchtext.itos
    (create_vocab (concat (repeat [55296%N; 32%N] 9)) Py.split id_lemmatize
       (Py.lit "<unk>") (Py.lit "<pad>"))
  = Some [Py.lit "<pad>"; Py.lit "<unk>"].
Proof. vm_compute. reflexivity. Qed.

Example first_seen_ex1 :
  first_seen (map Py.lit ["fit"; "dress"; "fit"; "top"; "dress"]%string)
  = map Py.lit ["fit"; "dress"; "top"]%string.
Proof. vm_compute. reflexivity. Qed.

Example rating_to_sentiment_ex1 :
  map rating_to_sentiment [0; 1; 2; 3; 4; 5; 6; -1]%Z = [1; 0; 0; 0; 1; 1; 1; 1]%Z.
Proof. reflexivity. Qed.

(** Ten complete rows are not enough for a category; eleven are. *)
Example process_data_transformed_ex1 :
  let raw (text : string) stars (category : string) :=
    Frame.mk_raw (Some (Py.lit text)) (Some stars) (Some (Py.lit category)) in
  process_data_transformed
    (repeat (raw "nice"%string 5%Z "Tops"%string) 10
       ++ [Frame.mk_raw None (Some 4%Z) (Some (Py.lit "Tops"))]
       ++ repeat (raw "tight"%string 2%Z "Knits"%string) 11)
  = repeat (Frame.mk_row (Py.lit "tight") 0 (Py.lit "Knits")) 11.
Proof. vm_compute. reflexivity. Qed.

(** Reviews of two lengths make no tensor. *)
Example convert_to_tensor_ex1 :
  convert_to_tensor (fun z => z) [([2; 3; 0], 1); ([2; 1], 0)]%Z = None.
Proof. reflexivity. Qed.

Example convert_to_tensor_ex2 :
  convert_to_tensor (fun z => z) [([2; 3; 0], 1); ([2; 1; 1], 0)]%Z
  = Some (Torch.mk_tensor Torch.Int64 [[2; 3; 0; 1]; [2; 1; 1; 0]]%Z).
Proof. reflexivity. Qed.

Example dataset_getitem_ex1 :
  let self := mk_dataset (Torch.mk_tensor Torch.Int64 [[2; 3; 0; 1]; [2; 1; 1; 0]]%Z) in
  dataset_getitem self (-1) = Some [2; 1; 1; 0]%Z
  /\ dataset_getitem self 2 = None
  /\ dataset_getitem self (-3) = None.
Proof. repeat split. Qed.
